(** * Blender magnetic field importer: a shallow embedding

    Source: [blender_import_magnetic_field.py].

    Numbers.  Python floats (and the components of a [mathutils.Vector])
    are idealised as exact rationals [Q]: no rounding, no overflow, no NaN.
    The one non-finite value the script itself writes, [float('inf')] in
    [interpolate_field], is kept as the constructor [PosInf] of [Qinf].

    Host.  [bpy], [mathutils] and the Python runtime are not part of the
    script.  [Vector.normalized] and [float] on strings are parameters
    (class [Host]); [json.load] and [csv.DictReader] are represented by what
    they return (record [FileSystem]); the scene is the list of its objects
    and collections, with the text printed so far (record [World]).

    Effects.  A function that can raise returns a [result]; a function that
    also touches the scene or prints is a [script], a state transformer over
    [World] whose changes persist when it raises. *)

From Stdlib Require Import QArith Qabs ZArith List Ascii String Bool Lia Lqa.
Import ListNotations.
Local Open Scope Q_scope.

(** * Part I: the program *)

(** ** Comparisons on floats *)

Definition Qltb (a b : Q) : bool :=
  match a ?= b with Lt => true | _ => false end.

(** A float that may be [float('inf')]. *)
Inductive Qinf : Type :=
| Finite (q : Q)
| PosInf.

(** [d < m] where [m] may be infinite. *)
Definition lt_inf (d : Q) (m : Qinf) : bool :=
  match m with
  | Finite q => Qltb d q
  | PosInf => true
  end.

(** ** mathutils.Vector *)

Record Vector : Type := mkVector { vx : Q; vy : Q; vz : Q }.

Definition vzero : Vector := mkVector 0 0 0.

Definition vadd (a b : Vector) : Vector :=
  mkVector (vx a + vx b) (vy a + vy b) (vz a + vz b).

Definition vsub (a b : Vector) : Vector :=
  mkVector (vx a - vx b) (vy a - vy b) (vz a - vz b).

Definition vscale (a : Vector) (k : Q) : Vector :=
  mkVector (vx a * k) (vy a * k) (vz a * k).

Definition length_squared (v : Vector) : Q :=
  vx v * vx v + vy v * vy v + vz v * vz v.

Definition veq (a b : Vector) : Prop :=
  vx a == vx b /\ vy a == vy b /\ vz a == vz b.

(** ** Field samples

    A sample is the dict [{'position': .., 'field': .., 'magnitude': ..}].
    The JSON loader stores ['magnitude'] as it finds it, so the record is
    parametric in the type [M] of that entry. *)

Record FieldPoint (M : Type) : Type := mkFieldPoint {
  position : Vector;
  field : Vector;
  magnitude : M
}.
Arguments mkFieldPoint {M} _ _ _.
Arguments position {M} _.
Arguments field {M} _.
Arguments magnitude {M} _.

(** ** interpolate_field (lines 280-291) *)

Section Sampler.
Context {M : Type}.

(** [(point['position'] - position).length_squared] *)
Definition dist2 (pos : Vector) (point : FieldPoint M) : Q :=
  length_squared (vsub (position point) pos).

(** One iteration of the [for point in field_points] loop; the loop
    state is [(nearest, min_dist)]. *)
Definition interpolate_step (pos : Vector)
    (st : option (FieldPoint M) * Qinf) (point : FieldPoint M)
    : option (FieldPoint M) * Qinf :=
  let dist := dist2 pos point in
  if lt_inf dist (snd st) then (Some point, Finite dist) else st.

Definition interpolate_field (field_points : list (FieldPoint M))
    (pos : Vector) : option (FieldPoint M) :=
  fst (fold_left (interpolate_step pos) field_points (None, PosInf)).

End Sampler.

(** ** Host library

    What the script calls in [mathutils] and in the Python runtime and
    the model does not compute: [Vector.normalized()] (a square root) and
    [float(s)] on a CSV cell ([None] when Python raises [ValueError]). *)

Class Host : Type := {
  normalized : Vector -> Vector;
  py_float : string -> option Q
}.

(** ** trace_field_line (lines 256-278) *)

(** An entry of [points]: the first one is [start_point] itself, the
    later ones are dicts with only ['position'] and ['magnitude']. *)
Record TracePoint : Type := mkTracePoint {
  tp_position : Vector;
  tp_field : option Vector;
  tp_magnitude : Q
}.

Definition start_entry (start_point : FieldPoint Q) : TracePoint :=
  mkTracePoint (position start_point) (Some (field start_point))
               (magnitude start_point).

Definition step_size : Q := 5 # 100.

(** [1e-6] *)
Definition tiny : Q := 1 # 1000000.

(** [abs(p.x) > 2 or abs(p.y) > 2 or abs(p.z) > 2] *)
Definition out_of_bounds (p : Vector) : bool :=
  Qltb 2 (Qabs (vx p)) || Qltb 2 (Qabs (vy p)) || Qltb 2 (Qabs (vz p)).

Section Tracer.
Context `{Host}.
Variable field_points : list (FieldPoint Q).
Variable max_magnitude : Q.

(** The body of [for _ in range(max_steps)], [n] iterations left;
    returns what the remaining iterations append to [points].  Each
    [break] ends the list. *)
Fixpoint trace_loop (n : nat) (current_pos : Vector) : list TracePoint :=
  match n with
  | O => []
  | S n' =>
      match interpolate_field field_points current_pos with
      | None => []
      | Some fld =>
          if Qltb (magnitude fld) (max_magnitude * tiny) then []
          else
            let direction := normalized (field fld) in
            let current_pos := vadd current_pos (vscale direction step_size) in
            if out_of_bounds current_pos then []
            else mkTracePoint current_pos None (magnitude fld)
                   :: trace_loop n' current_pos
      end
  end.

(** [range(max_steps)] is empty for a negative [max_steps]. *)
Definition trace_field_line (start_point : FieldPoint Q) (max_steps : Z)
    : list TracePoint :=
  start_entry start_point
    :: trace_loop (Z.to_nat max_steps) (position start_point).

End Tracer.

(** ** Color mapper (lines 96-116) *)

Definition RGBA : Type := (Q * Q * Q * Q)%type.

Definition rgba_eq (c d : RGBA) : Prop :=
  let '(r1, g1, b1, a1) := c in
  let '(r2, g2, b2, a2) := d in
  r1 == r2 /\ g1 == g2 /\ b1 == b2 /\ a1 == a2.

(** [min(a, b)]: the first of two equal arguments. *)
Definition py_min (a b : Q) : Q := if Qltb b a then b else a.

(** [int(q)] truncates toward zero. *)
Definition py_int (q : Q) : Z := Z.quot (Qnum q) (Zpos (Qden q)).

(** [colorsys.hsv_to_rgb] of the Python standard library. *)
Definition hsv_to_rgb (h s v : Q) : Q * Q * Q :=
  if Qeq_bool s 0 then (v, v, v)
  else
    let i := py_int (h * 6) in
    let f := h * 6 - inject_Z i in
    let p := v * (1 - s) in
    let q := v * (1 - s * f) in
    let t := v * (1 - s * (1 - f)) in
    match (i mod 6)%Z with
    | 0%Z => (v, t, p)
    | 1%Z => (q, v, p)
    | 2%Z => (p, v, t)
    | 3%Z => (p, q, v)
    | 4%Z => (t, p, v)
    | _ => (v, p, q)
    end.

Definition gray : RGBA := (1 # 2, 1 # 2, 1 # 2, 1).

(** [hue = (1.0 - t) * 0.666] with [t = min(1.0, magnitude / max_magnitude)] *)
Definition magnitude_hue (magnitude max_magnitude : Q) : Q :=
  let t := py_min 1 (magnitude / max_magnitude) in
  (1 - t) * (666 # 1000).

Definition magnitude_to_color (magnitude max_magnitude : Q) : RGBA :=
  if Qeq_bool max_magnitude 0 then gray
  else
    let hue := magnitude_hue magnitude max_magnitude in
    let '(r, g, b) := hsv_to_rgb hue 1 1 in
    (r, g, b, 1).

Definition direction_to_color `{Host} (field_vector : Vector) : RGBA :=
  let norm := normalized field_vector in
  let r := (vx norm + 1) / 2 in
  let g := (vy norm + 1) / 2 in
  let b := (vz norm + 1) / 2 in
  (r, g, b, 1).

(** ** Python values and exceptions *)

Inductive exn : Type :=
| KeyError (key : string)
| TypeError
| ValueError
| ZeroDivisionError
| IndexError
| OSError
| JSONDecodeError.

(** A computation that returns or raises. *)
Definition result (A : Type) : Type := (exn + A)%type.

Definition rbind {A B : Type} (c : result A) (k : A -> result B) : result B :=
  match c with
  | inl e => inl e
  | inr a => k a
  end.

Declare Scope result_scope.
Delimit Scope result_scope with result.
Notation "x <- c ;; k" := (rbind c (fun x => k))
  (at level 61, c at next level, right associativity) : result_scope.

(** A loop that builds a list and stops at the first exception. *)
Fixpoint map_result {A B : Type} (f : A -> result B) (l : list A)
    : result (list B) :=
  match l with
  | [] => inr []
  | a :: l' =>
      (b <- f a ;;
       bs <- map_result f l' ;;
       inr (b :: bs))%result
  end.

(** What [json.load] returns.  A [JObj] stands for the parsed dict: its
    keys are distinct and [dict_lookup] finds the entry of a key. *)
#[local] Set Warnings "-register-all".
Inductive json : Type :=
| JNull
| JBool (b : bool)
| JNum (q : Q)
| JStr (s : string)
| JArr (items : list json)
| JObj (members : list (string * json)).

Fixpoint dict_lookup {V : Type} (key : string) (members : list (string * V))
    : option V :=
  match members with
  | [] => None
  | (k, v) :: rest => if String.eqb k key then Some v else dict_lookup key rest
  end.

(** [v[key]] for a string key: only a dict can be subscripted by it. *)
Definition py_getitem (v : json) (key : string) : result json :=
  match v with
  | JObj members =>
      match dict_lookup key members with
      | Some x => inr x
      | None => inl (KeyError key)
      end
  | _ => inl TypeError
  end.

(** [key in d] and [d.get(key, default)], reached only on dicts: both come
    after a successful [d[...]] on the same value. *)
Definition py_contains (key : string) (d : json) : bool :=
  match d with
  | JObj members =>
      match dict_lookup key members with Some _ => true | None => false end
  | _ => false
  end.

Definition py_get (d : json) (key : string) (default : json) : json :=
  match d with
  | JObj members =>
      match dict_lookup key members with Some x => x | None => default end
  | _ => default
  end.

Fixpoint chars (s : string) : list json :=
  match s with
  | EmptyString => []
  | String c rest => JStr (String c EmptyString) :: chars rest
  end.

(** [for item in v]: a list yields its items, a dict its keys, a string
    its characters; nothing else is iterable. *)
Definition py_iter (v : json) : result (list json) :=
  match v with
  | JArr items => inr items
  | JObj members => inr (map (fun kv => JStr (fst kv)) members)
  | JStr s => inr (chars s)
  | _ => inl TypeError
  end.

(** The conversion of a value where a float is needed ([Vector((..))],
    a comparison, arithmetic).  [True] and [False] are the ints 1 and 0. *)
Definition as_float (v : json) : result Q :=
  match v with
  | JNum q => inr q
  | JBool true => inr 1
  | JBool false => inr 0
  | _ => inl TypeError
  end.

(** [Vector((a, b, c))]: the three items are evaluated first. *)
Definition make_vector (a b c : json) : result Vector :=
  (x <- as_float a ;;
   y <- as_float b ;;
   z <- as_float c ;;
   inr (mkVector x y z))%result.

(** ** The files

    [read_json path] is the outcome of [json.load(open(path))] and
    [read_csv path] the rows [csv.DictReader(open(path))] yields, each a
    dict from column name to cell ([None] for a cell the row lacks). *)

Definition csv_row : Type := list (string * option string).

Record FileSystem : Type := {
  read_json : string -> result json;
  read_csv : string -> result (list csv_row)
}.

(** ** load_field_data_json (lines 46-76) *)

Record Source : Type := mkSource {
  src_position : Vector;
  radius : json;
  current : json
}.

Definition load_point (point : json) : result (FieldPoint json) :=
  (pos <- py_getitem point "position" ;; px <- py_getitem pos "x" ;;
   pos <- py_getitem point "position" ;; py <- py_getitem pos "y" ;;
   pos <- py_getitem point "position" ;; pz <- py_getitem pos "z" ;;
   p <- make_vector px py pz ;;
   fld <- py_getitem point "field" ;; fx <- py_getitem fld "x" ;;
   fld <- py_getitem point "field" ;; fy <- py_getitem fld "y" ;;
   fld <- py_getitem point "field" ;; fz <- py_getitem fld "z" ;;
   f <- make_vector fx fy fz ;;
   mag <- py_getitem point "magnitude" ;;
   inr (mkFieldPoint p f mag))%result.

Definition load_source (source : json) : result Source :=
  (pos <- py_getitem source "position" ;;
   alt <- py_getitem pos "alt" ;;
   p <- make_vector (JNum 0) (JNum 0) alt ;;
   inr (mkSource p (py_get source "radius" (JNum (1 # 100)))
                   (py_get source "current" (JNum 0))))%result.

Definition load_field_data_json (fs : FileSystem) (filepath : string)
    : result (list (FieldPoint json) * list Source * json) :=
  (data <- read_json fs filepath ;;
   fld <- py_getitem data "field" ;;
   points <- py_iter fld ;;
   field_points <- map_result load_point points ;;
   sources <-
     (if py_contains "sources" data then
        srcs <- py_getitem data "sources" ;;
        items <- py_iter srcs ;;
        map_result load_source items
      else inr []) ;;
   inr (field_points, sources, py_get data "metadata" (JObj [])))%result.

(** ** load_field_data_csv (lines 78-94) *)

(** [float(row[column])] *)
Definition csv_float `{Host} (row : csv_row) (column : string) : result Q :=
  match dict_lookup column row with
  | None => inl (KeyError column)
  | Some None => inl TypeError
  | Some (Some cell) =>
      match py_float cell with
      | Some q => inr q
      | None => inl ValueError
      end
  end.

Definition load_row `{Host} (row : csv_row) : result (FieldPoint Q) :=
  (x <- csv_float row "x" ;; y <- csv_float row "y" ;; z <- csv_float row "z" ;;
   Bx <- csv_float row "Bx" ;; By <- csv_float row "By" ;;
   Bz <- csv_float row "Bz" ;;
   mag <- csv_float row "magnitude" ;;
   inr (mkFieldPoint (mkVector x y z) (mkVector Bx By Bz) mag))%result.

Definition load_field_data_csv `{Host} (fs : FileSystem) (filepath : string)
    : result (list (FieldPoint Q) * list Source * json) :=
  (rows <- read_csv fs filepath ;;
   field_points <- map_result load_row rows ;;
   inr (field_points, [], JObj []))%result.

(** ** The host scene

    The scene is reduced to what the script adds and removes: objects
    (with the collection they are linked to, the base color of their
    material and, for a curve, its polyline), collections, the active
    camera, the world background, and the text printed so far.  Mesh
    geometry, rotations and the renaming of duplicate names by the host
    are left out. *)

Inductive ob_kind : Type := Mesh | Curve | Camera | Light.

Record SceneObject : Type := mkObject {
  ob_name : string;
  kind : ob_kind;
  ob_collection : option string;
  ob_color : option RGBA;
  ob_polyline : list Vector
}.

(** A line of output.  Lines that format a number keep the number. *)
Inductive message : Type :=
| Text (s : string)
| Rule
| LoadingFrom (path : string)
| LoadedPoints (n : nat)
| LoadedSources (n : nat)
| MaxMagnitude (m : Q)
| UnknownMode (mode : string)
| CreatingArrows (n : nat)
| Progress (i n : nat)
| CreatingStreamlines (n : nat)
| CreatedStreamlines (n : nat)
| CreatingSources (n : nat)
| ModeUsed (mode : string).

Record World : Type := mkWorld {
  objects : list SceneObject;
  collections : list string;
  camera : option string;
  background : option RGBA;
  stdout : list message
}.

(** The scene proper: everything but the printed text. *)
Definition scene (w : World) : list SceneObject * list string * option string * option RGBA :=
  (objects w, collections w, camera w, background w).

(** A host call: it changes the world and returns or raises; what was
    done before an exception stays done. *)
Definition script (A : Type) : Type := World -> result A * World.

Definition ret {A : Type} (a : A) : script A := fun w => (inr a, w).

Definition raise {A : Type} (e : exn) : script A := fun w => (inl e, w).

Definition bind {A B : Type} (c : script A) (k : A -> script B) : script B :=
  fun w =>
    match c w with
    | (inl e, w') => (inl e, w')
    | (inr a, w') => k a w'
    end.

Definition lift {A : Type} (r : result A) : script A := fun w => (r, w).

Declare Scope script_scope.
Delimit Scope script_scope with script.
Notation "x <- c ;; k" := (bind c (fun x => k))
  (at level 61, c at next level, right associativity) : script_scope.
Notation "' pat <- c ;; k" := (bind c (fun x => match x with pat => k end))
  (at level 61, pat pattern, c at next level, right associativity) : script_scope.
Notation "c ;; k" := (bind c (fun _ => k))
  (at level 61, right associativity) : script_scope.

Definition print (m : message) : script unit :=
  fun w => (inr tt, mkWorld (objects w) (collections w) (camera w)
                            (background w) (stdout w ++ [m])).

Definition new_collection (name : string) : script unit :=
  fun w => (inr tt, mkWorld (objects w) (collections w ++ [name]) (camera w)
                            (background w) (stdout w)).

Definition add_object (o : SceneObject) : script unit :=
  fun w => (inr tt, mkWorld (objects w ++ [o]) (collections w) (camera w)
                            (background w) (stdout w)).

(** A [for] loop with its index, as [enumerate] gives it. *)
Fixpoint for_each {A : Type} (body : nat -> A -> script unit) (i : nat)
    (l : list A) : script unit :=
  match l with
  | [] => ret tt
  | a :: l' => (body i a ;; for_each body (S i) l')%script
  end.

(** A [for] loop that carries a counter. *)
Fixpoint for_count {A : Type} (body : nat -> A -> script nat) (count : nat)
    (l : list A) : script nat :=
  match l with
  | [] => ret count
  | a :: l' => (count' <- body count a ;; for_count body count' l')%script
  end.

(** ** clear_scene (lines 41-44): select everything, delete the selection.
    Objects the host would not select (hidden ones) are not modelled. *)

Definition clear_scene : script unit :=
  fun w => (inr tt, mkWorld [] (collections w) (camera w) (background w)
                            (stdout w)).

(** ** Configuration (lines 27-37) *)

Record Config : Type := mkConfig {
  FILE_PATH : string;
  VISUALIZATION_MODE : string;
  ARROW_SCALE : Q;
  ARROW_COLOR_MODE : string;
  SHOW_SOURCES : bool;
  PARTICLE_COUNT : Z;
  CURVE_STEPS : Z
}.

Definition default_config : Config :=
  mkConfig "/path/to/magnetic_field_export.json" "arrows" 1 "magnitude" true
           1000 50.

(** [s.endswith(suffix)] *)
Definition endswith (s suffix : string) : bool :=
  let n := String.length s in
  let k := String.length suffix in
  (k <=? n)%nat && String.eqb (substring (n - k) k s) suffix.

(** [str(i)]: the decimal digits of an index. *)
Fixpoint digits (fuel n : nat) (acc : string) : string :=
  match fuel with
  | O => acc
  | S fuel' =>
      let acc' := String (Ascii.ascii_of_nat (48 + n mod 10)) acc in
      if (n / 10 =? 0)%nat then acc' else digits fuel' (n / 10) acc'
  end.

Definition str (n : nat) : string := digits (S n) n "".

(** ** Visualization builders *)

Definition set_collection (name coll : string) (o : SceneObject) : SceneObject :=
  if String.eqb (ob_name o) name
  then mkObject (ob_name o) (kind o) (Some coll) (ob_color o) (ob_polyline o)
  else o.

(** Unlink the object from the collections that use it and link it to
    [coll]. *)
Definition move_to_collection (name coll : string) : script unit :=
  fun w => (inr tt, mkWorld (map (set_collection name coll) (objects w))
                            (collections w) (camera w) (background w)
                            (stdout w)).

(** create_arrow_mesh (lines 118-162): a cone and a cylinder joined into
    one mesh object called [name], with a material of the given color. *)
Definition create_arrow_mesh (name : string) (color : RGBA) : script string :=
  (add_object (mkObject name Mesh None (Some color) []) ;; ret name)%script.

Section Builders.
Context `{Host}.
Variable cfg : Config.

(** visualize_arrows (lines 164-201) *)
Definition arrow_body (n : nat) (max_magnitude : Q) (i : nat)
    (point : FieldPoint Q) : script unit :=
  ((if (i mod 100 =? 0)%nat then print (Progress i n) else ret tt) ;;
   let mag := magnitude point in
   if Qltb mag (max_magnitude * tiny) then ret tt
   else
     (* length = math.log10(mag / max_magnitude + 1) * ARROW_SCALE * 0.3 *)
     if Qeq_bool max_magnitude 0 then raise ZeroDivisionError
     else if Qle_bool (mag / max_magnitude + 1) 0 then raise ValueError
     else
       let color :=
         if String.eqb (ARROW_COLOR_MODE cfg) "magnitude"
         then magnitude_to_color mag max_magnitude
         else direction_to_color (field point) in
       arrow <- create_arrow_mesh ("arrow_" ++ str i) color ;;
       move_to_collection arrow "Magnetic Field Arrows")%script.

Definition visualize_arrows (field_points : list (FieldPoint Q))
    (max_magnitude : Q) : script unit :=
  (print (CreatingArrows (List.length field_points)) ;;
   new_collection "Magnetic Field Arrows" ;;
   for_each (arrow_body (List.length field_points) max_magnitude) 0 field_points ;;
   print (Text "Arrows created!"))%script.

(** [range(0, stop, step)] for [step >= 1] *)
Definition range_step (stop step : nat) : list nat :=
  map (fun k => k * step)%nat (seq 0 ((stop + step - 1) / step)).

(** visualize_curves (lines 203-254) *)
Definition curve_body (field_points : list (FieldPoint Q))
    (max_magnitude : Q) (streamline_count : nat) (i : nat) : script nat :=
  match nth_error field_points i with
  | None => raise IndexError
  | Some start_point =>
      if Qltb (magnitude start_point) (max_magnitude * (1 # 100))
      then ret streamline_count
      else
        let points :=
          trace_field_line field_points max_magnitude start_point
                           (CURVE_STEPS cfg) in
        if (List.length points <? 2)%nat then ret streamline_count
        else
          (* t = start_point['magnitude'] / max_magnitude *)
          if Qeq_bool max_magnitude 0 then raise ZeroDivisionError
          else
            let color :=
              magnitude_to_color (magnitude start_point) max_magnitude in
            (add_object
               (mkObject ("streamline_" ++ str streamline_count) Curve
                         (Some "Magnetic Field Lines"%string) (Some color)
                         (map tp_position points)) ;;
             ret (S streamline_count))%script
  end.

Definition visualize_curves (field_points : list (FieldPoint Q))
    (max_magnitude : Q) : script unit :=
  (print (CreatingStreamlines (List.length field_points)) ;;
   new_collection "Magnetic Field Lines" ;;
   let step := Nat.max 1 (List.length field_points / 50) in
   streamline_count <-
     for_count (curve_body field_points max_magnitude) 0
               (range_step (List.length field_points) step) ;;
   print (CreatedStreamlines streamline_count))%script.

(** create_sources (lines 293-325) *)
Definition source_body (i : nat) (source : Source) : script unit :=
  (_ <- lift (as_float (radius source)) ;;
   add_object (mkObject ("source_" ++ str i) Mesh None
                        (Some (1, 6 # 10, 2 # 10, 1)) []) ;;
   move_to_collection ("source_" ++ str i) "Field Sources")%script.

Definition create_sources (sources : list Source) : script unit :=
  match sources with
  | [] => ret tt
  | _ :: _ =>
      if negb (SHOW_SOURCES cfg) then ret tt
      else
        (print (CreatingSources (List.length sources)) ;;
         new_collection "Field Sources" ;;
         for_each source_body 0 sources)%script
  end.

(** setup_scene (lines 327-343) *)
Definition setup_scene : script unit :=
  fun w =>
    (inr tt,
     mkWorld (objects w ++ [mkObject "Camera" Camera None None [];
                            mkObject "Sun" Light None None []])
             (collections w) (Some "Camera"%string)
             (Some (2 # 100, 2 # 100, 5 # 100, 1)) (stdout w)).

(** ** main (lines 345-391) *)

(** [max(xs)]: raises [ValueError] on an empty sequence, returns the
    first of equal maxima. *)
Definition py_max (xs : list Q) : result Q :=
  match xs with
  | [] => inl ValueError
  | x :: rest => inr (fold_left (fun m y => if Qltb m y then y else m) rest x)
  end.

(** The script never converts ['magnitude']; Python raises when [max]
    or the [:.6e] format first needs a number.  The model converts the
    magnitudes at that point and reports a non-number as [TypeError]. *)
Definition numeric_point (p : FieldPoint json) : result (FieldPoint Q) :=
  (m <- as_float (magnitude p) ;;
   inr (mkFieldPoint (position p) (field p) m))%result.

Definition boxed_point (p : FieldPoint Q) : FieldPoint json :=
  mkFieldPoint (position p) (field p) (JNum (magnitude p)).

(** Lines 356-362: [None] is the [return] of the [else] branch. *)
Definition load_data (fs : FileSystem)
    : script (option (list (FieldPoint json) * list Source * json)) :=
  if endswith (FILE_PATH cfg) ".json" then
    (loaded <- lift (load_field_data_json fs (FILE_PATH cfg)) ;;
     ret (Some loaded))%script
  else if endswith (FILE_PATH cfg) ".csv" then
    ('(field_points, sources, metadata) <-
        lift (load_field_data_csv fs (FILE_PATH cfg)) ;;
     ret (Some (map boxed_point field_points, sources, metadata)))%script
  else
    (print (Text "Error: File must be .json or .csv") ;; ret None)%script.

(** Lines 372-378: [false] is the [return] of the [else] branch. *)
Definition visualize (field_points : list (FieldPoint Q))
    (max_magnitude : Q) : script bool :=
  if String.eqb (VISUALIZATION_MODE cfg) "arrows" then
    (visualize_arrows field_points max_magnitude ;; ret true)%script
  else if String.eqb (VISUALIZATION_MODE cfg) "curves" then
    (visualize_curves field_points max_magnitude ;; ret true)%script
  else
    (print (UnknownMode (VISUALIZATION_MODE cfg)) ;; ret false)%script.

Definition main (fs : FileSystem) : script unit :=
  (print Rule ;;
   print (Text "Blender Magnetic Field Importer") ;;
   print Rule ;;
   clear_scene ;;
   print (LoadingFrom (FILE_PATH cfg)) ;;
   loaded <- load_data fs ;;
   match loaded with
   | None => ret tt
   | Some (raw_points, sources, metadata) =>
       print (LoadedPoints (List.length raw_points)) ;;
       print (LoadedSources (List.length sources)) ;;
       field_points <- lift (map_result numeric_point raw_points) ;;
       max_magnitude <- lift (py_max (map magnitude field_points)) ;;
       print (MaxMagnitude max_magnitude) ;;
       visualized <- visualize field_points max_magnitude ;;
       if visualized then
         create_sources sources ;;
         setup_scene ;;
         print Rule ;;
         print (Text "Import complete!") ;;
         print Rule ;;
         print (ModeUsed (VISUALIZATION_MODE cfg)) ;;
         print (Text "Tip: Press 'Z' and select 'Rendered' for best view") ;;
         print (Text "Tip: Try switching to 'Shading' workspace for emergent pattern analysis")
       else ret tt
   end)%script.

End Builders.

(** ** A host to run the model

    Square roots to six decimals (exact on the squares used below), the
    zero vector normalized to itself as [mathutils] documents, and
    [float] on plain signed decimals. *)

Definition sqrt_fix (q : Q) : Q :=
  Qred (Z.sqrt (Qnum q * 10 ^ 12 / Zpos (Qden q)) # 10 ^ 6).

Definition normalized_fix (v : Vector) : Vector :=
  let d := length_squared v in
  if Qltb 0 d
  then
    let len := sqrt_fix d in
    mkVector (Qred (vx v / len)) (Qred (vy v / len)) (Qred (vz v / len))
  else vzero.

Definition digit_of (c : Ascii.ascii) : option Z :=
  let n := Ascii.nat_of_ascii c in
  if ((48 <=? n) && (n <=? 57))%nat then Some (Z.of_nat (n - 48)) else None.

(** Digits of [s] read into [num / den]; [frac] says the point was seen. *)
Fixpoint decimal (s : string) (num : Z) (den : positive) (frac seen : bool)
    : option Q :=
  match s with
  | EmptyString => if seen then Some (Qred (num # den)) else None
  | String c rest =>
      if Ascii.eqb c "."%char then
        if frac then None else decimal rest num den true seen
      else
        match digit_of c with
        | Some d =>
            decimal rest (num * 10 + d)%Z (if frac then den * 10 else den)%positive
                    frac true
        | None => None
        end
  end.

Definition float_fix (s : string) : option Q :=
  match s with
  | String "-"%char rest => option_map Qopp (decimal rest 0 1 false false)
  | _ => decimal s 0 1 false false
  end.

Definition host_fix : Host :=
  {| normalized := normalized_fix; py_float := float_fix |}.

(** ** Predicates used in the statements *)

(** No coordinate exceeds the domain bound of the tracer. *)
Definition in_bounds (p : Vector) : Prop :=
  Qabs (vx p) <= 2 /\ Qabs (vy p) <= 2 /\ Qabs (vz p) <= 2.

(** ** Sample data *)

(** The scenario of the specification: two samples, query (0.1, 0, 0). *)
Definition sample_a : FieldPoint Q :=
  mkFieldPoint (mkVector 0 0 0) (mkVector 1 0 0) 1.
Definition sample_b : FieldPoint Q :=
  mkFieldPoint (mkVector 1 0 0) (mkVector 0 1 0) 2.

(** Two samples at one position: a strong one scanned first, a null one
    after it. *)
Definition strong_at_origin : FieldPoint Q :=
  mkFieldPoint (mkVector 0 0 0) (mkVector 1 0 0) 1.
Definition null_at_origin : FieldPoint Q :=
  mkFieldPoint (mkVector 0 0 0) (mkVector 0 0 0) 0.

(** A sample just outside the domain bound whose field points inwards. *)
Definition outside_inwards : FieldPoint Q :=
  mkFieldPoint (mkVector (201 # 100) 0 0) (mkVector (-1) 0 0) 1.

(** The color at hue [h] (a fraction of a turn), full saturation and
    value, opaque. *)
Definition hue_color (h : Q) : RGBA :=
  let '(r, g, b) := hsv_to_rgb h 1 1 in (r, g, b, 1).






(** The JSON scenario of the specification. *)
Definition xyz (a b c : Q) : json :=
  JObj [("x"%string, JNum a); ("y"%string, JNum b); ("z"%string, JNum c)].

Definition scenario_json : json :=
  JObj [("field"%string,
         JArr [JObj [("position"%string, xyz 0 0 0);
                     ("field"%string, xyz 1 0 0);
                     ("magnitude"%string, JNum 1)];
               JObj [("position"%string, xyz 1 0 0);
                     ("field"%string, xyz 0 1 0);
                     ("magnitude"%string, JNum 2)]])].

(** A JSON export with an empty ['field'] list. *)
Definition empty_json : json := JObj [("field"%string, JArr [])].

(** A file system holding the two exports. *)
Definition scenario_fs : FileSystem :=
  {| read_json := fun path =>
       if String.eqb path "scenario.json" then inr scenario_json
       else if String.eqb path "empty.json" then inr empty_json
       else inl OSError;
     read_csv := fun _ => inl OSError |}.

(** The scene a fresh host session starts with. *)
Definition startup_world : World :=
  mkWorld [mkObject "Cube" Mesh (Some "Collection"%string) None [];
           mkObject "Light" Light (Some "Collection"%string) None [];
           mkObject "Camera" Camera (Some "Collection"%string) None []]
          ["Collection"%string] (Some "Camera"%string) None [].

Definition config_for (path mode : string) : Config :=
  mkConfig path mode 1 "magnitude" true 1000 50.


(** What [main] has printed when it starts to load. *)
Definition preamble (cfg : Config) : list message :=
  [Rule; Text "Blender Magnetic Field Importer"; Rule;
   LoadingFrom (FILE_PATH cfg)].

(** ** Further predicates used in the statements *)


(** Row [row] carries the numbers of sample [s] in its seven columns. *)
Definition row_describes `{Host} (row : csv_row) (s : FieldPoint Q) : Prop :=
  csv_float row "x" = inr (vx (position s)) /\
  csv_float row "y" = inr (vy (position s)) /\
  csv_float row "z" = inr (vz (position s)) /\
  csv_float row "Bx" = inr (vx (field s)) /\
  csv_float row "By" = inr (vy (field s)) /\
  csv_float row "Bz" = inr (vz (field s)) /\
  csv_float row "magnitude" = inr (magnitude s).

(** A JSON export whose second entry has no ['magnitude'], and one with
    two coils: the first declares a full position and no radius. *)
Definition broken_json : json :=
  JObj [("field"%string,
         JArr [JObj [("position"%string, xyz 0 0 0);
                     ("field"%string, xyz 1 0 0);
                     ("magnitude"%string, JNum 1)];
               JObj [("position"%string, xyz 1 0 0);
                     ("field"%string, xyz 0 1 0)];
               JObj [("position"%string, xyz 1 1 0);
                     ("field"%string, xyz 0 1 1);
                     ("magnitude"%string, JNum 3)]])].

Definition coil_json : json :=
  JObj [("position"%string,
         JObj [("x"%string, JNum 7); ("y"%string, JNum 8);
               ("alt"%string, JNum (1 # 2))]);
        ("current"%string, JNum 3)].

Definition more_fs : FileSystem :=
  {| read_json := fun path =>
       if String.eqb path "broken.json" then inr broken_json
       else inl OSError;
     read_csv := fun path =>
       if String.eqb path "short.csv" then
         inr [[("x", Some "0"); ("y", Some "0"); ("z", Some "0");
               ("Bx", Some "1"); ("By", Some "0"); ("Bz", Some "0");
               ("magnitude", Some "1")];
              [("x", Some "1"); ("y", Some "0"); ("z", Some "0");
               ("Bx", Some "0"); ("By", Some "1"); ("Bz", Some "0")]]%string
       else if String.eqb path "two.csv" then
         inr [[("x", Some "0"); ("y", Some "0"); ("z", Some "0");
               ("Bx", Some "1"); ("By", Some "0"); ("Bz", Some "0");
               ("magnitude", Some "1")];
              [("x", Some "1"); ("y", Some "0"); ("z", Some "0");
               ("Bx", Some "0"); ("By", Some "1"); ("Bz", Some "0");
               ("magnitude", Some "2")]]%string
       else if String.eqb path "header_only.csv" then inr []
       else inl OSError |}.

(** An entry appended by the tracer: no ['field'] key, and the magnitude
    of a sample of the sequence that is not below the threshold. *)
Definition traced_entry (field_points : list (FieldPoint Q))
    (max_magnitude : Q) (tp : TracePoint) : Prop :=
  tp_field tp = None /\
  exists s, In s field_points /\
            tp_magnitude tp = magnitude s /\
            max_magnitude * tiny <= magnitude s.

(** Every two neighbours of a list are related by [R]. *)
Fixpoint linked {A : Type} (R : A -> A -> Prop) (l : list A) : Prop :=
  match l with
  | a :: (b :: _) as rest => R a b /\ linked R rest
  | _ => True
  end.

(** One Euler step: from [a] to [b] along the normalized field of the
    sample nearest to [a]. *)
Definition euler_step `{Host} (field_points : list (FieldPoint Q))
    (a b : Vector) : Prop :=
  exists s, interpolate_field field_points a = Some s /\
            b = vadd a (vscale (normalized (field s)) step_size).

(** A color channel within its range. *)
Definition channel (c : Q) : Prop := 0 <= c <= 1.


(** Two worlds with the same collections, camera and background. *)
Definition same_setting (w w' : World) : Prop :=
  collections w' = collections w /\
  camera w' = camera w /\
  background w' = background w.

(** A sample the arrow builder does not skip. *)
Definition strong (max_magnitude : Q) (p : FieldPoint Q) : bool :=
  negb (Qltb (magnitude p) (max_magnitude * tiny)).

(** An arrow as the arrow builder leaves it in the scene. *)
Definition is_arrow (o : SceneObject) : Prop :=
  kind o = Mesh /\
  ob_collection o = Some "Magnetic Field Arrows"%string /\
  exists c, ob_color o = Some c.

(** An object kept by the builders: the same but perhaps linked to the
    arrows collection, which is what the builder does to an object that
    bears the name of a new arrow. *)
Definition relinked (o o' : SceneObject) : Prop :=
  ob_name o' = ob_name o /\
  kind o' = kind o /\
  ob_color o' = ob_color o /\
  ob_polyline o' = ob_polyline o /\
  (ob_collection o' = ob_collection o \/
   ob_collection o' = Some "Magnetic Field Arrows"%string).

(** The world [main] has built when it starts to visualize: the scene
    cleared, the counts and the maximum printed. *)
Definition loaded_world (cfg : Config) (w : World) (points sources : nat)
    (max_magnitude : Q) : World :=
  mkWorld [] (collections w) (camera w) (background w)
          (stdout w ++ preamble cfg
             ++ [LoadedPoints points; LoadedSources sources;
                 MaxMagnitude max_magnitude]).

(** Lines 380-391 of [main]: what follows a visualization. *)
Definition finish (cfg : Config) (sources : list Source) : script unit :=
  (create_sources cfg sources ;;
   setup_scene ;;
   print Rule ;;
   print (Text "Import complete!") ;;
   print Rule ;;
   print (ModeUsed (VISUALIZATION_MODE cfg)) ;;
   print (Text "Tip: Press 'Z' and select 'Rendered' for best view") ;;
   print (Text "Tip: Try switching to 'Shading' workspace for emergent pattern analysis"))%script.

(** A dataset of one sample with no field at all. *)
Definition null_json : json :=
  JObj [("field"%string,
         JArr [JObj [("position"%string, xyz 0 0 0);
                     ("field"%string, xyz 0 0 0);
                     ("magnitude"%string, JNum 0)]])].

Definition null_fs : FileSystem :=
  {| read_json := fun path =>
       if String.eqb path "null.json" then inr null_json else inl OSError;
     read_csv := fun _ => inl OSError |}.

(** A streamline as the curve builder leaves it in the scene: a curve in
    the field-lines collection, traced from a sample that is not weak,
    colored by that sample's magnitude, with at least two points. *)
Definition is_streamline `{Host} (cfg : Config)
    (field_points : list (FieldPoint Q)) (max_magnitude : Q)
    (o : SceneObject) : Prop :=
  kind o = Curve /\
  ob_collection o = Some "Magnetic Field Lines"%string /\
  (exists k, ob_name o = ("streamline_" ++ str k)%string) /\
  (2 <= List.length (ob_polyline o))%nat /\
  exists start_point,
    In start_point field_points /\
    max_magnitude * (1 # 100) <= magnitude start_point /\
    ob_color o = Some (magnitude_to_color (magnitude start_point) max_magnitude) /\
    ob_polyline o
      = map tp_position
            (trace_field_line field_points max_magnitude start_point
                              (CURVE_STEPS cfg)).

(** The sources [create_sources] draws: all of them, or none when
    [SHOW_SOURCES] is off. *)
Definition shown_sources (cfg : Config) (sources : list Source) : nat :=
  if SHOW_SOURCES cfg then List.length sources else 0%nat.

(** Every source has a number for radius. *)
Definition numeric_radii (sources : list Source) : Prop :=
  Forall (fun s => exists r, as_float (radius s) = inr r) sources.



(** Why the tracer takes no step from [pos]: no sample to read, a field
    that is too weak, or a step that would leave the domain. *)
Definition cannot_step `{Host} (field_points : list (FieldPoint Q))
    (max_magnitude : Q) (pos : Vector) : Prop :=
  interpolate_field field_points pos = None \/
  exists fld,
    interpolate_field field_points pos = Some fld /\
    (magnitude fld < max_magnitude * tiny \/
     out_of_bounds (vadd pos (vscale (normalized (field fld)) step_size))
       = true).

(** * Part II: properties *)

(** ** Comparisons *)

Lemma Qltb_lt (a b : Q) : Qltb a b = true <-> a < b.
Proof.
  unfold Qltb. rewrite Qlt_alt. destruct (a ?= b); split; congruence.
Qed.

Lemma Qltb_ge (a b : Q) : Qltb a b = false <-> b <= a.
Proof.
  split; intro H.
  - apply Qnot_lt_le. intro L. apply Qltb_lt in L. congruence.
  - destruct (Qltb a b) eqn:E; [|reflexivity].
    apply Qltb_lt in E. exfalso. apply (Qlt_not_le _ _ E H).
Qed.

#[global] Instance Qltb_Proper : Proper (Qeq ==> Qeq ==> eq) Qltb.
Proof.
  intros a a' Ha b b' Hb. unfold Qltb. now rewrite Ha, Hb.
Qed.

(** ** Vectors *)




(** ** The sampler *)

Section SamplerFacts.
Context {M : Type}.

(** *** The scan keeps the first minimum *)

(** Once a candidate [p] is held, scanning [rest] ends on a candidate of
    [p :: rest] that is strictly closer than everything before it and at
    least as close as everything after it. *)
Lemma scan_from_candidate (pos : Vector) (rest : list (FieldPoint M)) :
  forall (pre : list (FieldPoint M)) (p : FieldPoint M)
         (post : list (FieldPoint M)),
    (forall q, In q pre -> dist2 pos p < dist2 pos q) ->
    (forall q, In q post -> dist2 pos p <= dist2 pos q) ->
    exists l1 p' l2,
      pre ++ p :: post ++ rest = l1 ++ p' :: l2 /\
      fold_left (interpolate_step pos) rest (Some p, Finite (dist2 pos p))
        = (Some p', Finite (dist2 pos p')) /\
      (forall q, In q l1 -> dist2 pos p' < dist2 pos q) /\
      (forall q, In q l2 -> dist2 pos p' <= dist2 pos q).
Proof.
  induction rest as [|r rest IH]; intros pre p post Hpre Hpost.
  - exists pre, p, post. rewrite app_nil_r. auto.
  - cbn [fold_left]. unfold interpolate_step at 2. cbn [snd lt_inf].
    destruct (Qltb (dist2 pos r) (dist2 pos p)) eqn:E.
    + apply Qltb_lt in E.
      destruct (IH (pre ++ p :: post) r []) as (l1 & p' & l2 & Heq & Hf & H1 & H2).
      * intros q Hq. apply in_app_or in Hq. destruct Hq as [Hq|[Hq|Hq]].
        -- eapply Qlt_trans; [exact E | auto].
        -- subst q. exact E.
        -- eapply Qlt_le_trans; [exact E | auto].
      * intros q [].
      * exists l1, p', l2. repeat split; auto.
        rewrite <- Heq. rewrite <- !app_assoc. reflexivity.
    + apply Qltb_ge in E.
      destruct (IH pre p (post ++ [r])) as (l1 & p' & l2 & Heq & Hf & H1 & H2).
      * exact Hpre.
      * intros q Hq. apply in_app_or in Hq. destruct Hq as [Hq|[Hq|[]]]; auto.
        subst q. exact E.
      * exists l1, p', l2. repeat split; auto.
        rewrite <- Heq. rewrite <- !app_assoc. reflexivity.
Qed.

Lemma interpolate_field_cons (pos : Vector) (p : FieldPoint M)
    (rest : list (FieldPoint M)) :
  exists l1 p' l2,
    p :: rest = l1 ++ p' :: l2 /\
    interpolate_field (p :: rest) pos = Some p' /\
    (forall q, In q l1 -> dist2 pos p' < dist2 pos q) /\
    (forall q, In q l2 -> dist2 pos p' <= dist2 pos q).
Proof.
  destruct (scan_from_candidate pos rest [] p [])
    as (l1 & p' & l2 & Heq & Hf & H1 & H2); try (intros q []).
  exists l1, p', l2. repeat split; auto.
  unfold interpolate_field. cbn [fold_left].
  unfold interpolate_step at 2. cbn [snd lt_inf]. now rewrite Hf.
Qed.




End SamplerFacts.







Example interpolate_field_scenario :
  interpolate_field [sample_a; sample_b] (mkVector (1 # 10) 0 0) = Some sample_a.
Proof. reflexivity. Qed.

(** Two samples at the same distance: the one scanned first is kept. *)
Example interpolate_field_tie :
  interpolate_field [strong_at_origin; null_at_origin] vzero
    = Some strong_at_origin /\
  interpolate_field [null_at_origin; strong_at_origin] vzero
    = Some null_at_origin.
Proof. split; reflexivity. Qed.

(** ** The tracer *)

Lemma out_of_bounds_false (p : Vector) :
  out_of_bounds p = false <-> in_bounds p.
Proof.
  unfold out_of_bounds, in_bounds.
  rewrite !orb_false_iff, !Qltb_ge. tauto.
Qed.

Section TracerFacts.
Context `{Host}.
Variable field_points : list (FieldPoint Q).
Variable max_magnitude : Q.

Lemma trace_loop_length (n : nat) :
  forall current_pos,
    (List.length (trace_loop field_points max_magnitude n current_pos) <= n)%nat.
Proof.
  induction n as [|n IH]; intros current_pos; cbn [trace_loop].
  - apply Nat.le_refl.
  - destruct (interpolate_field field_points current_pos) as [fld|];
      [|apply Nat.le_0_l].
    destruct (Qltb (magnitude fld) (max_magnitude * tiny)); [apply Nat.le_0_l|].
    destruct (out_of_bounds _); [apply Nat.le_0_l|].
    cbn [List.length]. apply le_n_S. apply IH.
Qed.

Lemma trace_loop_in_bounds (n : nat) :
  forall current_pos,
    Forall (fun tp => in_bounds (tp_position tp))
           (trace_loop field_points max_magnitude n current_pos).
Proof.
  induction n as [|n IH]; intros current_pos; cbn [trace_loop].
  - constructor.
  - destruct (interpolate_field field_points current_pos) as [fld|];
      [|constructor].
    destruct (Qltb (magnitude fld) (max_magnitude * tiny)); [constructor|].
    destruct (out_of_bounds _) eqn:E; [constructor|].
    constructor; [|apply IH].
    cbn [tp_position]. apply out_of_bounds_false. exact E.
Qed.

Lemma trace_loop_escape (n : nat) (current_pos : Vector) (fld : FieldPoint Q) :
  interpolate_field field_points current_pos = Some fld ->
  out_of_bounds
    (vadd current_pos (vscale (normalized (field fld)) step_size)) = true ->
  trace_loop field_points max_magnitude (S n) current_pos = [].
Proof.
  intros Hf Hout. cbn [trace_loop]. rewrite Hf.
  destruct (Qltb (magnitude fld) (max_magnitude * tiny)); [reflexivity|].
  now rewrite Hout.
Qed.


End TracerFacts.

(** C5. For every sample sequence, starting sample, [max_magnitude] and
    [max_steps >= 0], [trace_field_line] returns a sequence of length at
    least 1 and at most [max_steps + 1]. *)
Theorem trace_field_line_length `{Host} (field_points : list (FieldPoint Q))
    (start_point : FieldPoint Q) (max_magnitude : Q) (max_steps : Z) :
  (0 <= max_steps)%Z ->
  (1 <= Z.of_nat (List.length
         (trace_field_line field_points max_magnitude start_point max_steps))
     <= max_steps + 1)%Z.
Proof.
  intros Hsteps. unfold trace_field_line. cbn [List.length].
  pose proof (trace_loop_length field_points max_magnitude
                (Z.to_nat max_steps) (position start_point)) as Hlen.
  lia.
Qed.

Lemma trace_field_line_length_witness :
  (0 <= 50)%Z /\
  (1 <= Z.of_nat (List.length
         (@trace_field_line host_fix [sample_a; sample_b] 2 sample_a 50))
     <= 50 + 1)%Z.
Proof.
  split; [lia|].
  apply (@trace_field_line_length host_fix [sample_a; sample_b] sample_a 2 50).
  lia.
Defined.

(** C6 as stated fails: the start point is appended unchecked.  A start
    outside the bound is returned, and the trace goes on from it. *)
Lemma trace_field_line_start_unchecked :
  out_of_bounds (position outside_inwards) = true /\
  In (start_entry outside_inwards)
     (@trace_field_line host_fix [outside_inwards] 1 outside_inwards 2) /\
  List.length
    (@trace_field_line host_fix [outside_inwards] 1 outside_inwards 2) = 3%nat /\
  ~ Forall (fun tp => in_bounds (tp_position tp))
      (@trace_field_line host_fix [outside_inwards] 1 outside_inwards 2).
Proof.
  split; [reflexivity|]. split; [left; reflexivity|]. split; [reflexivity|].
  intros HF. apply Forall_inv in HF.
  apply out_of_bounds_false in HF. discriminate HF.
Qed.

(** C6, amended. The returned sequence is the start point followed by
    positions that all lie within the bound, and a step whose new position
    has a coordinate beyond the bound ends the trace without appending it.
    The start point itself is not checked. *)
Theorem trace_field_line_bounds `{Host} (field_points : list (FieldPoint Q))
    (start_point : FieldPoint Q) (max_magnitude : Q) (max_steps : Z) :
  (exists rest,
     trace_field_line field_points max_magnitude start_point max_steps
       = start_entry start_point :: rest /\
     Forall (fun tp => in_bounds (tp_position tp)) rest) /\
  (forall (n : nat) (current_pos : Vector) (fld : FieldPoint Q),
     interpolate_field field_points current_pos = Some fld ->
     out_of_bounds
       (vadd current_pos (vscale (normalized (field fld)) step_size)) = true ->
     trace_loop field_points max_magnitude (S n) current_pos = []).
Proof.
  split.
  - eexists. split; [reflexivity|]. apply trace_loop_in_bounds.
  - intros n current_pos fld. apply trace_loop_escape.
Qed.

Lemma trace_field_line_bounds_witness :
  interpolate_field [sample_b] (mkVector 1 2 0) = Some sample_b /\
  out_of_bounds
    (vadd (mkVector 1 2 0)
          (vscale (normalized_fix (field sample_b)) step_size)) = true /\
  @trace_loop host_fix [sample_b] 2 1 (mkVector 1 2 0) = [].
Proof.
  split; [reflexivity|]. split; [reflexivity|].
  apply (proj2 (@trace_field_line_bounds host_fix [sample_b] sample_b 2 50)
           0%nat (mkVector 1 2 0) sample_b); reflexivity.
Defined.




(** ** The color mapper *)





Lemma magnitude_to_color_hue (m max_magnitude : Q) :
  ~ max_magnitude == 0 ->
  magnitude_to_color m max_magnitude = hue_color (magnitude_hue m max_magnitude).
Proof.
  intros Hne. unfold magnitude_to_color.
  destruct (Qeq_bool max_magnitude 0) eqn:E; [|reflexivity].
  apply Qeq_bool_iff in E. contradiction.
Qed.






(** C10. [direction_to_color] does not divide by the length of its
    argument: when the host normalizes the zero vector to the zero vector,
    as [mathutils] documents, the zero vector is mapped to the opaque
    mid-gray (0.5, 0.5, 0.5, 1.0). *)
Theorem direction_to_color_zero `{Host} :
  veq (normalized vzero) vzero ->
  rgba_eq (direction_to_color vzero) (1 # 2, 1 # 2, 1 # 2, 1).
Proof.
  intros (Hx & Hy & Hz). unfold direction_to_color. cbn [rgba_eq].
  rewrite Hx, Hy, Hz. cbn [vzero vx vy vz].
  repeat split; reflexivity.
Qed.

Lemma direction_to_color_zero_witness :
  veq (normalized_fix vzero) vzero /\
  rgba_eq (@direction_to_color host_fix vzero) (1 # 2, 1 # 2, 1 # 2, 1).
Proof.
  assert (veq (normalized_fix vzero) vzero) as Hz by (repeat split; reflexivity).
  split; [exact Hz|].
  apply (@direction_to_color_zero host_fix). exact Hz.
Defined.

(** ** The JSON loader *)








(** ** main *)

Section MainFacts.
Context `{Host}.
Variable cfg : Config.
Variable fs : FileSystem.

Lemma load_data_unsupported (w : World) :
  endswith (FILE_PATH cfg) ".json" = false ->
  endswith (FILE_PATH cfg) ".csv" = false ->
  load_data cfg fs w =
    (inr None,
     mkWorld (objects w) (collections w) (camera w) (background w)
             (stdout w ++ [Text "Error: File must be .json or .csv"])).
Proof.
  intros Hj Hc. unfold load_data. rewrite Hj, Hc. reflexivity.
Qed.

Lemma main_unsupported (w : World) :
  endswith (FILE_PATH cfg) ".json" = false ->
  endswith (FILE_PATH cfg) ".csv" = false ->
  main cfg fs w =
    (inr tt,
     mkWorld [] (collections w) (camera w) (background w)
             (stdout w ++ preamble cfg
                ++ [Text "Error: File must be .json or .csv"])).
Proof.
  intros Hj Hc. unfold main.
  cbv [bind print clear_scene objects collections camera background stdout].
  rewrite load_data_unsupported by assumption.
  cbv [ret objects collections camera background stdout preamble].
  rewrite <- !app_assoc. reflexivity.
Qed.

Lemma visualize_other_mode (field_points : list (FieldPoint Q))
    (max_magnitude : Q) (w : World) :
  String.eqb (VISUALIZATION_MODE cfg) "arrows" = false ->
  String.eqb (VISUALIZATION_MODE cfg) "curves" = false ->
  visualize cfg field_points max_magnitude w =
    (inr false,
     mkWorld (objects w) (collections w) (camera w) (background w)
             (stdout w ++ [UnknownMode (VISUALIZATION_MODE cfg)])).
Proof.
  intros Ha Hc. unfold visualize. rewrite Ha, Hc. reflexivity.
Qed.

Lemma main_empty_dataset (w : World) (sources : list Source) (metadata : json) :
  (forall w0, load_data cfg fs w0 = (inr (Some ([], sources, metadata)), w0)) ->
  main cfg fs w =
    (inl ValueError,
     mkWorld [] (collections w) (camera w) (background w)
             (stdout w ++ preamble cfg
                ++ [LoadedPoints 0; LoadedSources (List.length sources)])).
Proof.
  intros Hload. unfold main.
  cbv [bind print clear_scene objects collections camera background stdout].
  rewrite Hload.
  cbv [lift map_result map py_max ret List.length
       objects collections camera background stdout preamble].
  rewrite <- !app_assoc. reflexivity.
Qed.

End MainFacts.

(** C1. For every dataset that loads, with [VISUALIZATION_MODE =
    'particles'] [main] builds no particle system: the dispatch of lines
    372-378 has no branch for that mode, so the run prints "Unknown
    visualization mode: particles" and returns, leaving the cleared scene
    empty. *)
Theorem main_particles_unknown_mode `{Host} (cfg : Config) (fs : FileSystem)
    (w : World) (raw_points : list (FieldPoint json)) (sources : list Source)
    (metadata : json) (field_points : list (FieldPoint Q)) (max_magnitude : Q) :
  VISUALIZATION_MODE cfg = "particles"%string ->
  (forall w0,
     load_data cfg fs w0 = (inr (Some (raw_points, sources, metadata)), w0)) ->
  map_result numeric_point raw_points = inr field_points ->
  py_max (map magnitude field_points) = inr max_magnitude ->
  main cfg fs w =
    (inr tt,
     mkWorld [] (collections w) (camera w) (background w)
             (stdout w ++ preamble cfg
                ++ [LoadedPoints (List.length raw_points);
                    LoadedSources (List.length sources);
                    MaxMagnitude max_magnitude;
                    UnknownMode "particles"])).
Proof.
  intros Hmode Hload Hnum Hmax. unfold main.
  cbv [bind print clear_scene objects collections camera background stdout].
  rewrite Hload. cbv [lift]. rewrite Hnum, Hmax.
  rewrite visualize_other_mode by (rewrite Hmode; reflexivity).
  rewrite Hmode.
  cbv [ret objects collections camera background stdout preamble].
  rewrite <- !app_assoc. reflexivity.
Qed.

Lemma main_particles_unknown_mode_witness :
  VISUALIZATION_MODE (config_for "scenario.json" "particles")
    = "particles"%string /\
  @main host_fix (config_for "scenario.json" "particles") scenario_fs
        startup_world
  = (inr tt,
     mkWorld [] ["Collection"%string] (Some "Camera"%string) None
             [Rule; Text "Blender Magnetic Field Importer"; Rule;
              LoadingFrom "scenario.json"; LoadedPoints 2; LoadedSources 0;
              MaxMagnitude 2; UnknownMode "particles"]).
Proof.
  split; [reflexivity|].
  apply (@main_particles_unknown_mode host_fix
           (config_for "scenario.json" "particles") scenario_fs startup_world
           (map boxed_point [sample_a; sample_b]) [] (JObj [])
           [sample_a; sample_b] 2).
  - reflexivity.
  - intros w0. reflexivity.
  - reflexivity.
  - reflexivity.
Defined.

(** C2 as stated fails: [clear_scene] runs before the extension is looked
    at, so the soft abort leaves the scene without its objects. *)
Lemma main_unsupported_extension_clears_scene :
  endswith "export.txt" ".json" = false /\
  endswith "export.txt" ".csv" = false /\
  fst (@main host_fix (config_for "export.txt" "arrows") scenario_fs
             startup_world) = inr tt /\
  objects (snd (@main host_fix (config_for "export.txt" "arrows") scenario_fs
                      startup_world)) = [] /\
  scene (snd (@main host_fix (config_for "export.txt" "arrows") scenario_fs
                    startup_world)) <> scene startup_world.
Proof.
  repeat split; try reflexivity. vm_compute. discriminate.
Qed.

(** C2, amended. For a file path that ends neither in [.json] nor in
    [.csv], the run returns without raising, its last line of output is the
    error message, no file is read and no samples are loaded, and nothing
    is added to the scene; the scene is what [clear_scene] left of it, so it
    is unchanged exactly when it held no objects before. *)
Theorem main_unsupported_extension `{Host} (cfg : Config) (fs : FileSystem)
    (w : World) :
  endswith (FILE_PATH cfg) ".json" = false ->
  endswith (FILE_PATH cfg) ".csv" = false ->
  fst (main cfg fs w) = inr tt /\
  stdout (snd (main cfg fs w))
    = stdout w ++ preamble cfg ++ [Text "Error: File must be .json or .csv"] /\
  (forall w0, fst (load_data cfg fs w0) = inr None) /\
  (forall fs', main cfg fs' w = main cfg fs w) /\
  scene (snd (main cfg fs w)) = scene (snd (clear_scene w)) /\
  (scene (snd (main cfg fs w)) = scene w <-> objects w = []).
Proof.
  intros Hj Hc.
  split; [now rewrite main_unsupported|].
  split; [now rewrite main_unsupported|].
  split; [intros w0; now rewrite load_data_unsupported|].
  split; [intros fs'; now rewrite !main_unsupported|].
  rewrite main_unsupported by assumption.
  split; [reflexivity|].
  unfold scene; cbn [snd objects collections camera background].
  split.
  - intros E. injection E as E. symmetry. exact E.
  - intros ->. reflexivity.
Qed.

Lemma main_unsupported_extension_witness :
  endswith "export.txt" ".json" = false /\
  endswith "export.txt" ".csv" = false /\
  fst (@main host_fix (config_for "export.txt" "arrows") scenario_fs
             startup_world) = inr tt /\
  scene (snd (@main host_fix (config_for "export.txt" "arrows") scenario_fs
                    startup_world))
    = scene (snd (clear_scene startup_world)).
Proof.
  assert (endswith (FILE_PATH (config_for "export.txt" "arrows")) ".json"
          = false) as Hj by reflexivity.
  assert (endswith (FILE_PATH (config_for "export.txt" "arrows")) ".csv"
          = false) as Hc by reflexivity.
  split; [exact Hj|]. split; [exact Hc|].
  pose proof (@main_unsupported_extension host_fix
                (config_for "export.txt" "arrows") scenario_fs startup_world
                Hj Hc) as (Hret & _ & _ & _ & Hscene & _).
  split; [exact Hret|exact Hscene].
Defined.

(** C3 as stated fails: nothing guards the maximum.  On a dataset with no
    samples [max] is evaluated on the empty sequence and its [ValueError]
    leaves [main]; no error line is printed. *)
Lemma main_empty_dataset_unguarded :
  load_field_data_json scenario_fs "empty.json" = inr ([], [], JObj []) /\
  py_max [] = inl ValueError /\
  @main host_fix (config_for "empty.json" "arrows") scenario_fs startup_world
  = (inl ValueError,
     mkWorld [] ["Collection"%string] (Some "Camera"%string) None
             [Rule; Text "Blender Magnetic Field Importer"; Rule;
              LoadingFrom "empty.json"; LoadedPoints 0; LoadedSources 0]).
Proof.
  split; [reflexivity|]. split; [reflexivity|]. vm_compute. reflexivity.
Qed.

(** C3, amended. For a dataset that loads with zero samples, [main] has
    no guard: after clearing the scene and printing the two counts it
    evaluates the maximum over the empty sequence, which raises
    [ValueError]; the exception leaves [main], and no visualization is
    built. *)
Theorem main_empty_dataset_raises `{Host} (cfg : Config) (fs : FileSystem)
    (w : World) (sources : list Source) (metadata : json) :
  (forall w0, load_data cfg fs w0 = (inr (Some ([], sources, metadata)), w0)) ->
  fst (main cfg fs w) = inl ValueError /\
  stdout (snd (main cfg fs w))
    = stdout w ++ preamble cfg
        ++ [LoadedPoints 0; LoadedSources (List.length sources)] /\
  objects (snd (main cfg fs w)) = [] /\
  collections (snd (main cfg fs w)) = collections w.
Proof.
  intros Hload. rewrite (main_empty_dataset cfg fs w sources metadata Hload).
  repeat split; reflexivity.
Qed.

Lemma main_empty_dataset_raises_witness :
  (forall w0,
     @load_data host_fix (config_for "empty.json" "arrows") scenario_fs w0
     = (inr (Some ([], [], JObj [])), w0)) /\
  fst (@main host_fix (config_for "empty.json" "arrows") scenario_fs
             startup_world) = inl ValueError.
Proof.
  assert (forall w0,
            @load_data host_fix (config_for "empty.json" "arrows") scenario_fs w0
            = (inr (Some ([], [], JObj [])), w0)) as Hload
    by (intros w0; reflexivity).
  split; [exact Hload|].
  apply (@main_empty_dataset_raises host_fix (config_for "empty.json" "arrows")
           scenario_fs startup_world [] (JObj []) Hload).
Defined.

(** * Part III: further properties of the code *)

(** ** Loops that stop at the first exception *)

Lemma map_result_inr {A B : Type} (f : A -> result B) (l : list A)
    (bs : list B) :
  map_result f l = inr bs <-> Forall2 (fun a b => f a = inr b) l bs.
Proof.
  revert bs. induction l as [|a l IH]; intros bs; cbn [map_result].
  - split.
    + intros E. injection E as <-. constructor.
    + intros F. inversion F. reflexivity.
  - destruct (f a) as [e|b] eqn:Ea; cbn [rbind].
    + split; [discriminate|]. intros F. inversion F; subst. congruence.
    + destruct (map_result f l) as [e|bs'] eqn:El; cbn [rbind].
      * split; [discriminate|]. intros F. inversion F; subst.
        match goal with
        | HF : Forall2 _ l _ |- _ => apply IH in HF; discriminate HF
        end.
      * split.
        -- intros E. injection E as <-. constructor; [exact Ea|].
           apply IH. reflexivity.
        -- intros F. inversion F; subst.
           match goal with
           | HF : Forall2 _ l _ |- _ => apply IH in HF; congruence
           end.
Qed.

Lemma map_result_first_error {A B : Type} (f : A -> result B)
    (good : list A) (bad : A) (rest : list A) (e : exn) :
  Forall (fun a => exists b, f a = inr b) good ->
  f bad = inl e ->
  map_result f (good ++ bad :: rest) = inl e.
Proof.
  intros Hgood Hbad. induction Hgood as [|a good (b & Hb) _ IH].
  - cbn [app map_result]. now rewrite Hbad.
  - cbn [app map_result]. rewrite Hb. cbn [rbind]. now rewrite IH.
Qed.

(** ** The JSON loader, continued *)

(** X1. What the top level of the JSON value must be: a value that is not a
    dict raises [TypeError], a dict without ['field'] raises
    [KeyError('field')], and a ['field'] that is null, a number or a boolean
    raises [TypeError]; a failure to read the file is passed on. *)
Theorem load_field_data_json_top_level (fs : FileSystem) (filepath : string) :
  (forall e, read_json fs filepath = inl e ->
     load_field_data_json fs filepath = inl e) /\
  (forall data, read_json fs filepath = inr data ->
     (forall members, data <> JObj members) ->
     load_field_data_json fs filepath = inl TypeError) /\
  (forall members, read_json fs filepath = inr (JObj members) ->
     dict_lookup "field" members = None ->
     load_field_data_json fs filepath = inl (KeyError "field")) /\
  (forall members fld, read_json fs filepath = inr (JObj members) ->
     dict_lookup "field" members = Some fld ->
     (fld = JNull \/ (exists b, fld = JBool b) \/ (exists q, fld = JNum q)) ->
     load_field_data_json fs filepath = inl TypeError).
Proof.
  unfold load_field_data_json. repeat split.
  - intros e ->. reflexivity.
  - intros data -> Hnot. destruct data; try reflexivity.
    exfalso. eapply Hnot. reflexivity.
  - intros members -> Hnone. cbn [rbind py_getitem]. now rewrite Hnone.
  - intros members fld -> Hsome Hfld. cbn [rbind py_getitem]. rewrite Hsome.
    destruct Hfld as [-> | [(b & ->) | (q & ->)]]; reflexivity.
Qed.

Lemma load_field_data_json_top_level_witness :
  read_json scenario_fs "missing.json" = inl OSError /\
  load_field_data_json scenario_fs "missing.json" = inl OSError.
Proof.
  split; [reflexivity|].
  apply (proj1 (load_field_data_json_top_level scenario_fs "missing.json")).
  reflexivity.
Defined.

(** X2. No partial success: when an entry of the ['field'] list fails to
    load and the entries before it load, the whole load fails with the
    exception of that entry, whatever follows it. *)
Theorem load_field_data_json_first_error (fs : FileSystem) (filepath : string)
    (data : json) (good : list json) (bad : json) (rest : list json)
    (e : exn) :
  read_json fs filepath = inr data ->
  py_getitem data "field" = inr (JArr (good ++ bad :: rest)) ->
  Forall (fun point => exists s, load_point point = inr s) good ->
  load_point bad = inl e ->
  load_field_data_json fs filepath = inl e.
Proof.
  intros Hread Hfield Hgood Hbad. unfold load_field_data_json.
  rewrite Hread. cbn [rbind]. rewrite Hfield. cbn [rbind py_iter].
  now rewrite (map_result_first_error load_point good bad rest e Hgood Hbad).
Qed.

(** X3. What a successful load returns: one sample per item of
    [data['field']], the i-th sample being what the i-th item holds; the
    metadata is [data['metadata']] or the empty dict; and without a
    ['sources'] key there are no sources. *)
Theorem load_field_data_json_success (fs : FileSystem) (filepath : string)
    (field_points : list (FieldPoint json)) (sources : list Source)
    (metadata : json) :
  load_field_data_json fs filepath = inr (field_points, sources, metadata) ->
  exists data fld items,
    read_json fs filepath = inr data /\
    py_getitem data "field" = inr fld /\
    py_iter fld = inr items /\
    List.length field_points = List.length items /\
    Forall2 (fun item p => load_point item = inr p) items field_points /\
    metadata = py_get data "metadata" (JObj []) /\
    (py_contains "sources" data = false -> sources = []).
Proof.
  unfold load_field_data_json. intros Hload.
  destruct (read_json fs filepath) as [e|data] eqn:Hread; [discriminate|].
  cbn [rbind] in Hload.
  destruct (py_getitem data "field") as [e|fld] eqn:Hfld; [discriminate|].
  cbn [rbind] in Hload.
  destruct (py_iter fld) as [e|items] eqn:Hitems; [discriminate|].
  cbn [rbind] in Hload.
  destruct (map_result load_point items) as [e|pts] eqn:Hpts; [discriminate|].
  cbn [rbind] in Hload.
  apply map_result_inr in Hpts.
  assert (List.length pts = List.length items) as Hlen
    by (symmetry; eapply Forall2_length; exact Hpts).
  exists data, fld, items.
  destruct (py_contains "sources" data) eqn:Hc.
  - destruct (py_getitem data "sources") as [e|srcs]; [discriminate|].
    cbn [rbind] in Hload.
    destruct (py_iter srcs) as [e|sitems]; [discriminate|].
    cbn [rbind] in Hload.
    destruct (map_result load_source sitems) as [e|ss]; [discriminate|].
    cbn [rbind] in Hload. injection Hload as <- <- <-.
    repeat split; try reflexivity; try assumption. discriminate.
  - cbn [rbind] in Hload. injection Hload as <- <- <-.
    repeat split; try reflexivity; assumption.
Qed.

Lemma load_field_data_json_success_witness :
  load_field_data_json scenario_fs "scenario.json"
    = inr (map boxed_point [sample_a; sample_b], [], JObj []) /\
  exists data fld items,
    read_json scenario_fs "scenario.json" = inr data /\
    py_getitem data "field" = inr fld /\
    py_iter fld = inr items /\
    List.length (map boxed_point [sample_a; sample_b]) = List.length items /\
    Forall2 (fun item p => load_point item = inr p) items
            (map boxed_point [sample_a; sample_b]) /\
    JObj [] = py_get data "metadata" (JObj []) /\
    (py_contains "sources" data = false -> @nil Source = []).
Proof.
  split; [reflexivity|].
  apply (load_field_data_json_success scenario_fs "scenario.json").
  reflexivity.
Defined.

Lemma load_field_data_json_first_error_witness :
  read_json more_fs "broken.json" = inr broken_json /\
  load_field_data_json more_fs "broken.json" = inl (KeyError "magnitude").
Proof.
  split; [reflexivity|].
  apply (load_field_data_json_first_error more_fs "broken.json" broken_json
           [JObj [("position"%string, xyz 0 0 0); ("field"%string, xyz 1 0 0);
                  ("magnitude"%string, JNum 1)]]
           (JObj [("position"%string, xyz 1 0 0); ("field"%string, xyz 0 1 0)])
           [JObj [("position"%string, xyz 1 1 0); ("field"%string, xyz 0 1 1);
                  ("magnitude"%string, JNum 3)]]).
  - reflexivity.
  - reflexivity.
  - constructor; [|constructor]. eexists. reflexivity.
  - reflexivity.
Defined.

(** X4. A source that loads lies on the z axis: its x and y are 0 whatever
    the entry declares, its z is the entry's [position.alt]; its radius is
    the entry's ['radius'] or 0.01 and its current the entry's ['current']
    or 0.  An entry without [position.alt] does not load. *)
Theorem load_source_on_axis (source : json) :
  (forall s, load_source source = inr s ->
     vx (src_position s) = 0 /\ vy (src_position s) = 0 /\
     (exists pos alt,
        py_getitem source "position" = inr pos /\
        py_getitem pos "alt" = inr alt /\
        as_float alt = inr (vz (src_position s))) /\
     radius s = py_get source "radius" (JNum (1 # 100)) /\
     current s = py_get source "current" (JNum 0)) /\
  (forall pos, py_getitem source "position" = inr pos ->
     (forall alt, py_getitem pos "alt" <> inr alt) ->
     exists e, load_source source = inl e).
Proof.
  unfold load_source. split.
  - intros s Hs.
    destruct (py_getitem source "position") as [e|pos] eqn:Hp; [discriminate|].
    cbn [rbind] in Hs.
    destruct (py_getitem pos "alt") as [e|alt] eqn:Ha; [discriminate|].
    cbn [rbind make_vector as_float] in Hs.
    destruct (as_float alt) as [e|z] eqn:Hz; [discriminate|].
    cbn [rbind] in Hs. injection Hs as <-. cbn [src_position radius current vx vy vz].
    repeat split. exists pos, alt. repeat split; assumption.
  - intros pos -> Hno. cbn [rbind].
    destruct (py_getitem pos "alt") as [e|alt] eqn:Ha.
    + exists e. reflexivity.
    + exfalso. apply (Hno alt). reflexivity.
Qed.

Lemma load_source_on_axis_witness :
  load_source coil_json
    = inr (mkSource (mkVector 0 0 (1 # 2)) (JNum (1 # 100)) (JNum 3)) /\
  vx (src_position (mkSource (mkVector 0 0 (1 # 2)) (JNum (1 # 100)) (JNum 3)))
    = 0 /\
  radius (mkSource (mkVector 0 0 (1 # 2)) (JNum (1 # 100)) (JNum 3))
    = py_get coil_json "radius" (JNum (1 # 100)).
Proof.
  assert (load_source coil_json
          = inr (mkSource (mkVector 0 0 (1 # 2)) (JNum (1 # 100)) (JNum 3)))
    as Hl by reflexivity.
  split; [exact Hl|].
  destruct (proj1 (load_source_on_axis coil_json) _ Hl)
    as (Hx & _ & _ & Hr & _).
  split; [exact Hx|exact Hr].
Defined.

(** ** The CSV loader *)

Section CsvFacts.
Context `{Host}.


Lemma load_row_inr (row : csv_row) (s : FieldPoint Q) :
  load_row row = inr s <-> row_describes row s.
Proof.
  unfold load_row, row_describes. split.
  - intros E.
    destruct (csv_float row "x") as [?|x]; [discriminate|]; cbn [rbind] in E.
    destruct (csv_float row "y") as [?|y]; [discriminate|]; cbn [rbind] in E.
    destruct (csv_float row "z") as [?|z]; [discriminate|]; cbn [rbind] in E.
    destruct (csv_float row "Bx") as [?|Bx]; [discriminate|]; cbn [rbind] in E.
    destruct (csv_float row "By") as [?|By]; [discriminate|]; cbn [rbind] in E.
    destruct (csv_float row "Bz") as [?|Bz]; [discriminate|]; cbn [rbind] in E.
    destruct (csv_float row "magnitude") as [?|m]; [discriminate|].
    cbn [rbind] in E. injection E as <-. repeat split.
  - intros (-> & -> & -> & -> & -> & -> & ->). cbn [rbind].
    destruct s as [[x y z] [a b c] m]. reflexivity.
Qed.


End CsvFacts.

(** X5. What a successful CSV load returns: one sample per row, in row
    order, holding the numbers [float] reads from the row's seven columns;
    never any source, and the empty metadata. *)
Theorem load_field_data_csv_success `{Host} (fs : FileSystem)
    (filepath : string) (field_points : list (FieldPoint Q))
    (sources : list Source) (metadata : json) :
  load_field_data_csv fs filepath = inr (field_points, sources, metadata) ->
  sources = [] /\ metadata = JObj [] /\
  exists rows,
    read_csv fs filepath = inr rows /\
    List.length field_points = List.length rows /\
    Forall2 row_describes rows field_points.
Proof.
  unfold load_field_data_csv. intros E.
  destruct (read_csv fs filepath) as [e|rows] eqn:Hrows; [discriminate|].
  cbn [rbind] in E.
  destruct (map_result load_row rows) as [e|pts] eqn:Hpts; [discriminate|].
  cbn [rbind] in E. injection E as <- <- <-.
  apply map_result_inr in Hpts.
  split; [reflexivity|]. split; [reflexivity|].
  exists rows. split; [reflexivity|]. split.
  - symmetry. eapply Forall2_length. exact Hpts.
  - eapply Forall2_impl; [|exact Hpts].
    intros row s. apply load_row_inr.
Qed.

Lemma load_field_data_csv_success_witness :
  @load_field_data_csv host_fix more_fs "two.csv"
    = inr ([sample_a; sample_b], [], JObj []) /\
  @nil Source = [] /\ JObj [] = JObj [] /\
  exists rows,
    read_csv more_fs "two.csv" = inr rows /\
    List.length [sample_a; sample_b] = List.length rows /\
    Forall2 (@row_describes host_fix) rows [sample_a; sample_b].
Proof.
  split; [reflexivity|].
  apply (@load_field_data_csv_success host_fix more_fs "two.csv").
  reflexivity.
Defined.



(** ** The sampler, continued *)

Section SamplerMore.
Context {M : Type}.

Lemma interpolate_field_In (field_points : list (FieldPoint M)) (pos : Vector)
    (p : FieldPoint M) :
  interpolate_field field_points pos = Some p -> In p field_points.
Proof.
  destruct field_points as [|a rest]; [discriminate|].
  destruct (interpolate_field_cons pos a rest) as (l1 & p' & l2 & Heq & Hf & _).
  rewrite Hf. intros E. injection E as <-. rewrite Heq.
  apply in_or_app. right. left. reflexivity.
Qed.

(** The state the scan ends in. *)
Lemma scan_shape (field_points : list (FieldPoint M)) (pos : Vector) :
  (field_points = [] /\
   fold_left (interpolate_step pos) field_points (None, PosInf) = (None, PosInf))
  \/
  (exists b, fold_left (interpolate_step pos) field_points (None, PosInf)
             = (Some b, Finite (dist2 pos b))).
Proof.
  destruct field_points as [|a rest]; [left; split; reflexivity|].
  right.
  destruct (scan_from_candidate pos rest [] a [])
    as (l1 & b & l2 & _ & Hf & _); try (intros q []).
  exists b. cbn [fold_left]. unfold interpolate_step at 2. cbn [snd lt_inf].
  exact Hf.
Qed.

(** Scanning from any state gives the better of that state and the result
    of scanning from scratch, the state winning a tie. *)
Lemma scan_from_state (pos : Vector) (l : list (FieldPoint M)) :
  forall (x : option (FieldPoint M)) (m : Qinf),
    fold_left (interpolate_step pos) l (x, m) =
    match fold_left (interpolate_step pos) l (None, PosInf) with
    | (Some b, Finite db) =>
        if lt_inf db m then (Some b, Finite db) else (x, m)
    | _ => (x, m)
    end.
Proof.
  induction l as [|a l IH]; intros x m; [reflexivity|].
  cbn [fold_left]. unfold interpolate_step at 2 4. cbn [snd lt_inf].
  rewrite (IH (Some a) (Finite (dist2 pos a))).
  destruct (lt_inf (dist2 pos a) m) eqn:Ea.
  - rewrite (IH (Some a) (Finite (dist2 pos a))).
    destruct (fold_left (interpolate_step pos) l (None, PosInf))
      as [[b|] [db|]]; cbn [lt_inf]; rewrite ?Ea; try reflexivity.
    destruct (Qltb db (dist2 pos a)) eqn:Eb; [|now rewrite Ea].
    assert (lt_inf db m = true) as ->; [|reflexivity].
    destruct m as [mq|]; [|reflexivity]. cbn [lt_inf] in *.
    apply Qltb_lt in Ea, Eb. apply Qltb_lt. eapply Qlt_trans; eassumption.
  - rewrite (IH x m).
    destruct (fold_left (interpolate_step pos) l (None, PosInf))
      as [[b|] [db|]]; cbn [lt_inf]; rewrite ?Ea; try reflexivity.
    destruct (Qltb db (dist2 pos a)) eqn:Eb; [reflexivity|]. rewrite Ea.
    assert (lt_inf db m = false) as ->; [|reflexivity].
    destruct m as [mq|]; [|discriminate Ea]. cbn [lt_inf] in *.
    apply Qltb_ge in Ea, Eb. apply Qltb_ge. eapply Qle_trans; eassumption.
Qed.

End SamplerMore.



(** X8. Sampling a concatenation is sampling both parts and keeping the
    closer result, the first part winning a tie. *)
Theorem interpolate_field_app {M : Type} (l1 l2 : list (FieldPoint M))
    (pos : Vector) :
  interpolate_field (l1 ++ l2) pos =
  match interpolate_field l1 pos, interpolate_field l2 pos with
  | Some a, Some b =>
      if Qltb (dist2 pos b) (dist2 pos a) then Some b else Some a
  | Some a, None => Some a
  | None, r => r
  end.
Proof.
  unfold interpolate_field. rewrite fold_left_app.
  destruct (scan_shape l1 pos) as [(-> & E1)|(a & E1)].
  - reflexivity.
  - rewrite E1. rewrite scan_from_state. cbn [fst].
    destruct (scan_shape l2 pos) as [(-> & E2)|(b & E2)].
    + reflexivity.
    + rewrite E2. cbn [fst lt_inf].
      destruct (Qltb (dist2 pos b) (dist2 pos a)); reflexivity.
Qed.

(** ** The tracer, continued *)

Section TracerMore.
Context `{Host}.
Variable field_points : list (FieldPoint Q).
Variable max_magnitude : Q.

Lemma trace_loop_extend (n k : nat) :
  forall current_pos,
    exists ext,
      trace_loop field_points max_magnitude (n + k) current_pos
      = trace_loop field_points max_magnitude n current_pos ++ ext.
Proof.
  induction n as [|n IH]; intros current_pos.
  - eexists. reflexivity.
  - cbn [Nat.add trace_loop].
    destruct (interpolate_field field_points current_pos) as [fld|];
      [|exists []; reflexivity].
    destruct (Qltb (magnitude fld) (max_magnitude * tiny));
      [exists []; reflexivity|].
    destruct (out_of_bounds _); [exists []; reflexivity|].
    destruct (IH (vadd current_pos
                       (vscale (normalized (field fld)) step_size)))
      as (ext & E).
    exists ext. rewrite E. reflexivity.
Qed.

Lemma trace_loop_stopped (n k : nat) :
  forall current_pos,
    (List.length (trace_loop field_points max_magnitude n current_pos) < n)%nat ->
    trace_loop field_points max_magnitude (n + k) current_pos
    = trace_loop field_points max_magnitude n current_pos.
Proof.
  induction n as [|n IH]; intros current_pos Hlen.
  - inversion Hlen.
  - cbn [Nat.add trace_loop] in *.
    destruct (interpolate_field field_points current_pos) as [fld|];
      [|reflexivity].
    destruct (Qltb (magnitude fld) (max_magnitude * tiny)); [reflexivity|].
    destruct (out_of_bounds _); [reflexivity|].
    cbn [List.length] in Hlen. f_equal. apply IH. lia.
Qed.

Lemma trace_loop_entries (n : nat) :
  forall current_pos,
    Forall (traced_entry field_points max_magnitude)
           (trace_loop field_points max_magnitude n current_pos).
Proof.
  induction n as [|n IH]; intros current_pos; cbn [trace_loop].
  - constructor.
  - destruct (interpolate_field field_points current_pos) as [fld|] eqn:Ef;
      [|constructor].
    destruct (Qltb (magnitude fld) (max_magnitude * tiny)) eqn:Em;
      [constructor|].
    destruct (out_of_bounds _); [constructor|].
    constructor; [|apply IH].
    split; [reflexivity|]. exists fld. cbn [tp_magnitude].
    split; [eapply interpolate_field_In; exact Ef|].
    split; [reflexivity|]. apply Qltb_ge. exact Em.
Qed.

End TracerMore.

(** X9. Raising [max_steps] only extends a trace: the trace for a smaller
    [max_steps] is a prefix of the trace for a larger one, and a trace that
    stopped before using all its steps is not changed by allowing more. *)
Theorem trace_field_line_prefix `{Host} (field_points : list (FieldPoint Q))
    (max_magnitude : Q) (start_point : FieldPoint Q) (n m : Z) :
  (n <= m)%Z ->
  (exists ext,
     trace_field_line field_points max_magnitude start_point m
     = trace_field_line field_points max_magnitude start_point n ++ ext) /\
  ((Z.of_nat (List.length
      (trace_field_line field_points max_magnitude start_point n)) < n + 1)%Z ->
   trace_field_line field_points max_magnitude start_point m
   = trace_field_line field_points max_magnitude start_point n).
Proof.
  intros Hle. unfold trace_field_line.
  assert (Z.to_nat m = (Z.to_nat n + (Z.to_nat m - Z.to_nat n))%nat) as -> by lia.
  split.
  - destruct (trace_loop_extend field_points max_magnitude (Z.to_nat n)
                (Z.to_nat m - Z.to_nat n) (position start_point)) as (ext & E).
    exists ext. rewrite E. reflexivity.
  - cbn [List.length]. intros Hlen.
    destruct (Z.to_nat n) as [|k] eqn:En.
    + exfalso. cbn [trace_loop List.length] in Hlen. lia.
    + rewrite <- En. f_equal. apply trace_loop_stopped. rewrite En in *. lia.
Qed.

Lemma trace_field_line_prefix_witness :
  (10 <= 50)%Z /\
  exists ext,
    @trace_field_line host_fix [sample_a; sample_b] 2 sample_a 50
    = @trace_field_line host_fix [sample_a; sample_b] 2 sample_a 10 ++ ext.
Proof.
  assert (10 <= 50)%Z as Hle by lia.
  split; [exact Hle|].
  apply (proj1 (@trace_field_line_prefix host_fix [sample_a; sample_b] 2
                  sample_a 10 50 Hle)).
Defined.

(** X10. Every entry of a trace after the first has no ['field'] key and
    carries the magnitude of a sample of the sequence, which is at least
    [max_magnitude * 1e-6]; the first entry is the starting sample. *)
Theorem trace_field_line_entries `{Host} (field_points : list (FieldPoint Q))
    (max_magnitude : Q) (start_point : FieldPoint Q) (max_steps : Z) :
  exists rest,
    trace_field_line field_points max_magnitude start_point max_steps
    = start_entry start_point :: rest /\
    Forall (traced_entry field_points max_magnitude) rest.
Proof.
  eexists. split; [reflexivity|]. apply trace_loop_entries.
Qed.

Lemma trace_loop_linked `{Host} (field_points : list (FieldPoint Q))
    (max_magnitude : Q) (n : nat) :
  forall current_pos,
    linked (euler_step field_points)
           (current_pos :: map tp_position
              (trace_loop field_points max_magnitude n current_pos)).
Proof.
  induction n as [|n IH]; intros current_pos; cbn [trace_loop].
  - exact I.
  - destruct (interpolate_field field_points current_pos) as [fld|] eqn:Ef;
      [|exact I].
    destruct (Qltb (magnitude fld) (max_magnitude * tiny)); [exact I|].
    destruct (out_of_bounds _); [exact I|].
    cbn [map tp_position linked]. split; [|apply IH].
    exists fld. split; [exact Ef|reflexivity].
Qed.

(** X11. A trace is an Euler path: each position after the first is the
    one before it moved by [step_size] along the normalized field of the
    sample nearest to the one before it. *)
Theorem trace_field_line_euler `{Host} (field_points : list (FieldPoint Q))
    (max_magnitude : Q) (start_point : FieldPoint Q) (max_steps : Z) :
  linked (euler_step field_points)
         (map tp_position
            (trace_field_line field_points max_magnitude start_point
                              max_steps)).
Proof.
  unfold trace_field_line. cbn [map start_entry tp_position].
  apply trace_loop_linked.
Qed.

(** ** The color mapper, continued *)



Lemma py_min_le_1 (a : Q) : py_min 1 a <= 1.
Proof.
  unfold py_min. destruct (Qltb a 1) eqn:E; [|apply Qle_refl].
  apply Qltb_lt in E. apply Qlt_le_weak. exact E.
Qed.

Lemma py_min_mono (a b : Q) : a <= b -> py_min 1 a <= py_min 1 b.
Proof.
  intros Hab. unfold py_min.
  destruct (Qltb a 1) eqn:Ea, (Qltb b 1) eqn:Eb;
    rewrite ?Qltb_lt, ?Qltb_ge in *; lra.
Qed.

Lemma Qdiv_le_mono (a b c : Q) : 0 < c -> a <= b -> a / c <= b / c.
Proof.
  intros Hc Hab. unfold Qdiv. apply Qmult_le_compat_r; [exact Hab|].
  apply Qlt_le_weak. apply Qinv_lt_0_compat. exact Hc.
Qed.

Lemma magnitude_hue_nonneg (m max_magnitude : Q) :
  0 <= magnitude_hue m max_magnitude.
Proof.
  unfold magnitude_hue. pose proof (py_min_le_1 (m / max_magnitude)). nra.
Qed.



(** X14. Magnitudes at or above a positive [max_magnitude] are clamped:
    they all get the red end of the sweep. *)
Theorem magnitude_to_color_clamped (m max_magnitude : Q) :
  0 < max_magnitude -> max_magnitude <= m ->
  magnitude_hue m max_magnitude == 0 /\
  rgba_eq (magnitude_to_color m max_magnitude) (1, 0, 0, 1).
Proof.
  intros Hpos Hle.
  assert (~ max_magnitude == 0) as Hne by lra.
  assert (magnitude_hue m max_magnitude = (1 - 1) * (666 # 1000)) as Hhue.
  { unfold magnitude_hue, py_min.
    assert (Qltb (m / max_magnitude) 1 = false) as ->; [|reflexivity].
    apply Qltb_ge. apply Qle_shift_div_l; lra. }
  rewrite (magnitude_to_color_hue m max_magnitude Hne), Hhue.
  split; [reflexivity|]. vm_compute. repeat split; reflexivity.
Qed.

Lemma magnitude_to_color_clamped_witness :
  0 < 2 /\ 2 <= 7 /\ rgba_eq (magnitude_to_color 7 2) (1, 0, 0, 1).
Proof.
  assert (0 < 2) as Hpos by reflexivity.
  assert (2 <= 7) as Hle by (intros E; discriminate E).
  split; [exact Hpos|]. split; [exact Hle|].
  apply (proj2 (magnitude_to_color_clamped 7 2 Hpos Hle)).
Defined.

(** X15. The hue falls as the magnitude rises: for a positive
    [max_magnitude] and magnitudes [0 <= m1 <= m2], the hue of [m2] is at
    most the hue of [m1], and both lie between 0 (red) and 0.666 (blue). *)
Theorem magnitude_hue_antitone (m1 m2 max_magnitude : Q) :
  0 < max_magnitude -> 0 <= m1 -> m1 <= m2 ->
  0 <= magnitude_hue m2 max_magnitude /\
  magnitude_hue m2 max_magnitude <= magnitude_hue m1 max_magnitude /\
  magnitude_hue m1 max_magnitude <= 666 # 1000.
Proof.
  intros Hpos H1 H12.
  split; [apply magnitude_hue_nonneg|].
  unfold magnitude_hue.
  pose proof (py_min_mono _ _ (Qdiv_le_mono m1 m2 max_magnitude Hpos H12))
    as Hmono.
  assert (0 <= py_min 1 (m1 / max_magnitude)) as Hlow.
  { assert (0 / max_magnitude == 0) as E0 by (unfold Qdiv; ring).
    pose proof (py_min_mono _ _ (Qdiv_le_mono 0 m1 max_magnitude Hpos H1))
      as Hm.
    assert (py_min 1 (0 / max_magnitude) == 0) as E.
    { unfold py_min.
      assert (Qltb (0 / max_magnitude) 1 = true) as ->
        by (apply Qltb_lt; rewrite E0; reflexivity).
      exact E0. }
    rewrite E in Hm. exact Hm. }
  split; nra.
Qed.

Lemma magnitude_hue_antitone_witness :
  0 < 2 /\ 0 <= 1 /\ 1 <= 2 /\
  magnitude_hue 2 2 <= magnitude_hue 1 2.
Proof.
  assert (0 < 2) as Hpos by reflexivity.
  assert (0 <= 1) as H1 by (intros E; discriminate E).
  assert (1 <= 2) as H12 by (intros E; discriminate E).
  split; [exact Hpos|]. split; [exact H1|]. split; [exact H12|].
  apply (proj1 (proj2 (magnitude_hue_antitone 1 2 2 Hpos H1 H12))).
Defined.

(** X16. When the normalized vector has its components within [-1, 1],
    as a unit vector or the zero vector has, [direction_to_color] returns a
    displayable color: each channel lies in [0, 1] and alpha is 1; a
    component of -1 gives channel 0 and a component of 1 gives channel 1. *)
Theorem direction_to_color_valid `{Host} (field_vector : Vector) :
  -1 <= vx (normalized field_vector) <= 1 ->
  -1 <= vy (normalized field_vector) <= 1 ->
  -1 <= vz (normalized field_vector) <= 1 ->
  let '(r, g, b, a) := direction_to_color field_vector in
  channel r /\ channel g /\ channel b /\ a = 1 /\
  (vx (normalized field_vector) == -1 -> r == 0) /\
  (vx (normalized field_vector) == 1 -> r == 1).
Proof.
  intros Hx Hy Hz. unfold direction_to_color, channel.
  assert (forall c : Q, -1 <= c <= 1 -> 0 <= (c + 1) / 2 <= 1) as Hc.
  { intros c Hr. unfold Qdiv. change (/ 2) with (1 # 2). lra. }
  repeat split; try apply Hc; try assumption.
  - intros ->. reflexivity.
  - intros ->. reflexivity.
Qed.

Lemma direction_to_color_valid_witness :
  rgba_eq (@direction_to_color host_fix (mkVector 3 4 0))
          (8 # 10, 9 # 10, 1 # 2, 1) /\
  (let '(r, g, b, a) := @direction_to_color host_fix (mkVector 3 4 0) in
   channel r /\ channel g /\ channel b /\ a = 1 /\
   (vx (normalized_fix (mkVector 3 4 0)) == -1 -> r == 0) /\
   (vx (normalized_fix (mkVector 3 4 0)) == 1 -> r == 1)).
Proof.
  split; [vm_compute; repeat split; reflexivity|].
  apply (@direction_to_color_valid host_fix (mkVector 3 4 0));
    split; intros E; discriminate E.
Defined.

(** ** main and the builders *)

Lemma py_max_fold (rest : list Q) :
  forall x,
    let m := fold_left (fun m y => if Qltb m y then y else m) rest x in
    In m (x :: rest) /\ x <= m /\ Forall (fun y => y <= m) rest.
Proof.
  induction rest as [|y rest IH]; intros x; cbn [fold_left].
  - split; [left; reflexivity|]. split; [apply Qle_refl|constructor].
  - destruct (Qltb x y) eqn:E.
    + destruct (IH y) as (Hin & Hle & Hall).
      apply Qltb_lt in E.
      split; [right; exact Hin|]. split; [lra|].
      constructor; assumption.
    + destruct (IH x) as (Hin & Hle & Hall).
      apply Qltb_ge in E.
      split; [destruct Hin as [Hin|Hin]; [left; exact Hin|right; right; exact Hin]|].
      split; [exact Hle|]. constructor; [lra|exact Hall].
Qed.

(** X17. [max] as [main] uses it: it raises [ValueError] exactly on the
    empty sequence, and otherwise returns an element of the sequence that
    no element exceeds. *)
Theorem py_max_greatest (xs : list Q) :
  (py_max xs = inl ValueError <-> xs = []) /\
  (forall m, py_max xs = inr m ->
     In m xs /\ Forall (fun x => x <= m) xs) /\
  (xs <> [] -> exists m, py_max xs = inr m).
Proof.
  destruct xs as [|x rest]; cbn [py_max].
  - split; [tauto|]. split; [discriminate|congruence].
  - split; [split; discriminate|]. split.
    + intros m E. injection E as <-.
      destruct (py_max_fold rest x) as (Hin & Hle & Hall).
      split; [exact Hin|]. constructor; assumption.
    + intros _. eexists. reflexivity.
Qed.

Lemma py_max_greatest_witness :
  py_max [1; 3; 2] = inr 3 /\
  In 3 [1; 3; 2] /\ Forall (fun x => x <= 3) [1; 3; 2].
Proof.
  assert (py_max [1; 3; 2] = inr 3) as E by reflexivity.
  split; [exact E|].
  apply (proj1 (proj2 (py_max_greatest [1; 3; 2])) 3 E).
Defined.

Section ArrowFacts.
Context `{Host}.
Variable cfg : Config.

Lemma arrow_body_skip (n : nat) (max_magnitude : Q) (i : nat)
    (point : FieldPoint Q) (w : World) :
  Qltb (magnitude point) (max_magnitude * tiny) = true ->
  exists w',
    arrow_body cfg n max_magnitude i point w = (inr tt, w') /\
    objects w' = objects w /\ same_setting w w'.
Proof.
  intros Hskip. unfold arrow_body, bind.
  destruct (i mod 100 =? 0)%nat; cbv [print ret]; cbn [fst snd];
    rewrite Hskip; eexists; (split; [reflexivity|]);
    repeat split; reflexivity.
Qed.

Lemma arrow_body_zero (n : nat) (max_magnitude : Q) (i : nat)
    (point : FieldPoint Q) (w : World) :
  Qltb (magnitude point) (max_magnitude * tiny) = false ->
  max_magnitude == 0 ->
  exists w',
    arrow_body cfg n max_magnitude i point w = (inl ZeroDivisionError, w') /\
    objects w' = objects w /\ same_setting w w'.
Proof.
  intros Hkeep Hzero. apply Qeq_bool_iff in Hzero. unfold arrow_body, bind.
  destruct (i mod 100 =? 0)%nat; cbv [print ret]; cbn [fst snd];
    rewrite Hkeep, Hzero; eexists; (split; [reflexivity|]);
    repeat split; reflexivity.
Qed.

Lemma arrow_body_add (n : nat) (max_magnitude : Q) (i : nat)
    (point : FieldPoint Q) (w : World) :
  Qltb (magnitude point) (max_magnitude * tiny) = false ->
  0 < max_magnitude ->
  exists w' o,
    arrow_body cfg n max_magnitude i point w = (inr tt, w') /\
    objects w'
      = map (set_collection ("arrow_" ++ str i) "Magnetic Field Arrows")
            (objects w) ++ [o] /\
    is_arrow o /\ same_setting w w'.
Proof.
  intros Hkeep Hpos.
  assert (Qeq_bool max_magnitude 0 = false) as Hnz.
  { destruct (Qeq_bool max_magnitude 0) eqn:E; [|reflexivity].
    apply Qeq_bool_iff in E. lra. }
  assert (Qle_bool (magnitude point / max_magnitude + 1) 0 = false) as Hlog.
  { destruct (Qle_bool (magnitude point / max_magnitude + 1) 0) eqn:E;
      [|reflexivity].
    apply Qle_bool_iff in E. apply Qltb_ge in Hkeep. exfalso.
    assert (tiny <= magnitude point / max_magnitude) as Hq.
    { apply Qle_shift_div_l; [exact Hpos|]. lra. }
    unfold tiny in Hq. lra. }
  unfold arrow_body, bind.
  destruct (i mod 100 =? 0)%nat; cbv [print ret]; cbn [fst snd];
    rewrite Hkeep, Hnz, Hlog;
    cbv [create_arrow_mesh bind add_object ret move_to_collection];
    cbn [objects collections camera background stdout];
    rewrite map_app; cbn [map];
    eexists; eexists; (split; [reflexivity|]);
    (split; [reflexivity|]);
    (split; [|repeat split; reflexivity]);
    unfold is_arrow, set_collection; cbn [ob_name];
    rewrite String.eqb_refl; cbn [kind ob_collection ob_color];
    (split; [reflexivity|]); (split; [reflexivity|]); eexists; reflexivity.
Qed.

Lemma set_collection_arrow (name : string) (o : SceneObject) :
  is_arrow o -> is_arrow (set_collection name "Magnetic Field Arrows" o).
Proof.
  intros (Hk & Hc & Hcol). unfold set_collection.
  destruct (String.eqb (ob_name o) name); [|repeat split; assumption].
  unfold is_arrow. cbn [kind ob_collection ob_color]. repeat split; assumption.
Qed.

Lemma relinked_refl (o : SceneObject) : relinked o o.
Proof. unfold relinked. repeat split; try reflexivity. left. reflexivity. Qed.

Lemma relinked_trans (a b c : SceneObject) :
  relinked a b -> relinked b c -> relinked a c.
Proof.
  unfold relinked.
  intros (N1 & K1 & C1 & P1 & L1) (N2 & K2 & C2 & P2 & L2).
  repeat split; try congruence.
  destruct L2 as [L2|L2]; [|right; exact L2].
  destruct L1 as [L1|L1]; [left|right]; congruence.
Qed.

Lemma relinked_set_collection (name : string) (o : SceneObject) :
  relinked o (set_collection name "Magnetic Field Arrows" o).
Proof.
  unfold set_collection.
  destruct (String.eqb (ob_name o) name); [|apply relinked_refl].
  unfold relinked. cbn [ob_name kind ob_color ob_polyline ob_collection].
  repeat split. right. reflexivity.
Qed.

Lemma relinked_arrow (o o' : SceneObject) :
  relinked o o' -> is_arrow o -> is_arrow o'.
Proof.
  unfold relinked, is_arrow.
  intros (_ & K & C & _ & L) (Hk & Hc & (c & Hcol)).
  split; [congruence|]. split; [destruct L; congruence|].
  exists c. congruence.
Qed.

Lemma Forall2_relinked_refl (l : list SceneObject) : Forall2 relinked l l.
Proof. induction l; constructor; [apply relinked_refl|assumption]. Qed.

Lemma Forall2_relinked_trans (l1 l2 l3 : list SceneObject) :
  Forall2 relinked l1 l2 -> Forall2 relinked l2 l3 -> Forall2 relinked l1 l3.
Proof.
  intros H12. revert l3. induction H12 as [|a b l1 l2 Hab _ IH]; intros l3 H23.
  - inversion H23. constructor.
  - inversion H23 as [|b' c l2' l3' Hbc Hrest]; subst.
    constructor; [eapply relinked_trans; eassumption|apply IH; assumption].
Qed.

Lemma Forall2_relinked_map (name : string) (l : list SceneObject) :
  Forall2 relinked l (map (set_collection name "Magnetic Field Arrows") l).
Proof.
  induction l; cbn [map]; constructor;
    [apply relinked_set_collection|assumption].
Qed.

(** The arrow loop when nothing divides by zero. *)
Lemma arrow_loop_adds (n : nat) (max_magnitude : Q) (l : list (FieldPoint Q)) :
  0 < max_magnitude ->
  forall (i : nat) (w : World),
  exists w' old arrows,
    for_each (arrow_body cfg n max_magnitude) i l w = (inr tt, w') /\
    objects w' = old ++ arrows /\
    Forall2 relinked (objects w) old /\
    List.length arrows = List.length (filter (strong max_magnitude) l) /\
    Forall is_arrow arrows /\
    same_setting w w'.
Proof.
  intros Hpos. induction l as [|p l IH]; intros i w.
  - exists w, (objects w), []. cbn [for_each filter List.length].
    split; [reflexivity|]. rewrite app_nil_r.
    split; [reflexivity|]. split; [apply Forall2_relinked_refl|].
    repeat split; constructor.
  - cbn [for_each filter]. unfold bind at 1. unfold strong at 1.
    destruct (Qltb (magnitude p) (max_magnitude * tiny)) eqn:Ep; cbn [negb].
    + destruct (arrow_body_skip n max_magnitude i p w Ep)
        as (w1 & E1 & Ho1 & Hs1).
      rewrite E1.
      destruct (IH (S i) w1) as (w' & old & arrows & E & Ho & Hl & Hc & Ha & Hs).
      exists w', old, arrows. split; [exact E|]. split; [exact Ho|].
      split; [now rewrite <- Ho1|]. split; [exact Hc|]. split; [exact Ha|].
      unfold same_setting in *. intuition congruence.
    + destruct (arrow_body_add n max_magnitude i p w Ep Hpos)
        as (w1 & o & E1 & Ho1 & Hao & Hs1).
      rewrite E1.
      destruct (IH (S i) w1) as (w' & old & arrows & E & Ho & Hl & Hc & Ha & Hs).
      rewrite Ho1 in Hl. apply Forall2_app_inv_l in Hl.
      destruct Hl as (old1 & old2 & Hl1 & Hl2 & ->).
      inversion Hl2 as [|o0 o' l0 l0' Hoo' Hnil]; subst. inversion Hnil; subst.
      exists w', old1, (o' :: arrows).
      split; [exact E|].
      split; [rewrite Ho, <- app_assoc; reflexivity|].
      split; [eapply Forall2_relinked_trans;
              [apply Forall2_relinked_map|exact Hl1]|].
      split; [cbn [List.length]; now rewrite Hc|].
      split; [constructor; [eapply relinked_arrow; eassumption|exact Ha]|].
      unfold same_setting in *. intuition congruence.
Qed.

(** The arrow loop when the maximum is zero: the first sample with a
    magnitude that is not negative divides by zero. *)
Lemma arrow_loop_zero (n : nat) (max_magnitude : Q) (l : list (FieldPoint Q)) :
  max_magnitude == 0 ->
  (exists p, In p l /\ 0 <= magnitude p) ->
  forall (i : nat) (w : World),
  exists w',
    for_each (arrow_body cfg n max_magnitude) i l w
      = (inl ZeroDivisionError, w') /\
    objects w' = objects w /\ same_setting w w'.
Proof.
  intros Hzero. induction l as [|a l IH]; intros (p & Hin & Hp) i w;
    [destruct Hin|].
  cbn [for_each]. unfold bind at 1.
  destruct (Qltb (magnitude a) (max_magnitude * tiny)) eqn:Ea.
  - destruct (arrow_body_skip n max_magnitude i a w Ea) as (w1 & E1 & Ho1 & Hs1).
    rewrite E1.
    assert (exists p, In p l /\ 0 <= magnitude p) as Hrest.
    { destruct Hin as [<-|Hin]; [|exists p; split; assumption].
      exfalso. apply Qltb_lt in Ea. rewrite Hzero in Ea. lra. }
    destruct (IH Hrest (S i) w1) as (w' & E & Ho & Hs).
    exists w'. split; [exact E|]. split; [congruence|].
    unfold same_setting in *. intuition congruence.
  - destruct (arrow_body_zero n max_magnitude i a w Ea Hzero)
      as (w1 & E1 & Ho1 & Hs1).
    rewrite E1. exists w1. repeat split; try assumption; apply Hs1.
Qed.

End ArrowFacts.

Section MainMore.
Context `{Host}.
Variable cfg : Config.

Lemma visualize_arrows_steps (field_points : list (FieldPoint Q))
    (max_magnitude : Q) (w : World) :
  visualize_arrows cfg field_points max_magnitude w =
  match for_each (arrow_body cfg (List.length field_points) max_magnitude) 0
                 field_points
                 (mkWorld (objects w)
                          (collections w ++ ["Magnetic Field Arrows"%string])
                          (camera w) (background w)
                          (stdout w ++ [CreatingArrows (List.length field_points)]))
  with
  | (inl e, w') => (inl e, w')
  | (inr _, w') =>
      (inr tt, mkWorld (objects w') (collections w') (camera w')
                       (background w') (stdout w' ++ [Text "Arrows created!"]))
  end.
Proof.
  unfold visualize_arrows.
  cbv [bind print new_collection objects collections camera background stdout].
  destruct (for_each _ _ _ _) as [[e|[]] w']; reflexivity.
Qed.

Lemma visualize_arrows_adds (field_points : list (FieldPoint Q))
    (max_magnitude : Q) (w : World) :
  0 < max_magnitude ->
  exists w' old arrows,
    visualize_arrows cfg field_points max_magnitude w = (inr tt, w') /\
    objects w' = old ++ arrows /\
    Forall2 relinked (objects w) old /\
    List.length arrows
      = List.length (filter (strong max_magnitude) field_points) /\
    Forall is_arrow arrows /\
    collections w' = collections w ++ ["Magnetic Field Arrows"%string] /\
    camera w' = camera w /\ background w' = background w.
Proof.
  intros Hpos. rewrite visualize_arrows_steps.
  match goal with
  | |- context [for_each ?b 0%nat field_points ?w0] =>
      destruct (arrow_loop_adds cfg (List.length field_points) max_magnitude
                  field_points Hpos 0%nat w0)
        as (w' & old & arrows & E & Ho & Hl & Hc & Ha & (Hs1 & Hs2 & Hs3))
  end.
  rewrite E. cbn [objects collections camera background] in *.
  eexists; exists old, arrows.
  split; [reflexivity|]. cbn [objects collections camera background].
  repeat split; assumption.
Qed.

Lemma visualize_arrows_zero (field_points : list (FieldPoint Q))
    (max_magnitude : Q) (w : World) :
  max_magnitude == 0 ->
  (exists p, In p field_points /\ 0 <= magnitude p) ->
  exists w',
    visualize_arrows cfg field_points max_magnitude w
      = (inl ZeroDivisionError, w') /\
    objects w' = objects w.
Proof.
  intros Hzero Hp. rewrite visualize_arrows_steps.
  match goal with
  | |- context [for_each ?b 0%nat field_points ?w0] =>
      destruct (arrow_loop_zero cfg (List.length field_points) max_magnitude
                  field_points Hzero Hp 0%nat w0) as (w' & E & Ho & _)
  end.
  rewrite E. exists w'. split; [reflexivity|exact Ho].
Qed.

(** [main] up to the visualization, for a dataset that loads. *)
Lemma main_after_load (fs : FileSystem) (w : World)
    (raw_points : list (FieldPoint json)) (sources : list Source)
    (metadata : json) (field_points : list (FieldPoint Q)) (max_magnitude : Q) :
  (forall w0,
     load_data cfg fs w0 = (inr (Some (raw_points, sources, metadata)), w0)) ->
  map_result numeric_point raw_points = inr field_points ->
  py_max (map magnitude field_points) = inr max_magnitude ->
  main cfg fs w =
  (visualized <- visualize cfg field_points max_magnitude ;;
   if visualized then finish cfg sources else ret tt)%script
    (loaded_world cfg w (List.length raw_points) (List.length sources)
                  max_magnitude).
Proof.
  intros Hload Hnum Hmax. unfold main.
  cbv [bind print clear_scene objects collections camera background stdout].
  rewrite Hload. cbv [lift]. rewrite Hnum, Hmax.
  unfold loaded_world, preamble. rewrite <- !app_assoc. cbn [app].
  reflexivity.
Qed.

End MainMore.

(** X18. With a positive [max_magnitude], [visualize_arrows] returns
    normally and adds one arrow per sample whose magnitude is not below
    [max_magnitude * 1e-6], each a colored mesh in the new collection
    "Magnetic Field Arrows"; it keeps the objects already there (name and
    kind unchanged) and leaves the camera and the background alone. *)
Theorem visualize_arrows_builds `{Host} (cfg : Config)
    (field_points : list (FieldPoint Q)) (max_magnitude : Q) (w : World) :
  0 < max_magnitude ->
  exists w' old arrows,
    visualize_arrows cfg field_points max_magnitude w = (inr tt, w') /\
    objects w' = old ++ arrows /\
    Forall2 (fun o o' => ob_name o' = ob_name o /\ kind o' = kind o)
            (objects w) old /\
    List.length arrows
      = List.length (filter (strong max_magnitude) field_points) /\
    Forall is_arrow arrows /\
    collections w' = collections w ++ ["Magnetic Field Arrows"%string] /\
    camera w' = camera w /\ background w' = background w.
Proof.
  intros Hpos.
  destruct (visualize_arrows_adds cfg field_points max_magnitude w Hpos)
    as (w' & old & arrows & E & Ho & Hl & Hrest).
  exists w', old, arrows. split; [exact E|]. split; [exact Ho|].
  split; [|exact Hrest].
  eapply Forall2_impl; [|exact Hl].
  intros o o' (Hn & Hk & _). split; assumption.
Qed.

Lemma visualize_arrows_builds_witness :
  0 < 2 /\
  exists w' old arrows,
    @visualize_arrows host_fix (config_for "scenario.json" "arrows")
                      [sample_a; sample_b] 2 startup_world = (inr tt, w') /\
    objects w' = old ++ arrows /\
    Forall2 (fun o o' => ob_name o' = ob_name o /\ kind o' = kind o)
            (objects startup_world) old /\
    List.length arrows
      = List.length (filter (strong 2) [sample_a; sample_b]) /\
    Forall is_arrow arrows /\
    collections w'
      = collections startup_world ++ ["Magnetic Field Arrows"%string] /\
    camera w' = camera startup_world /\
    background w' = background startup_world.
Proof.
  assert (0 < 2) as Hpos by reflexivity.
  split; [exact Hpos|].
  apply (@visualize_arrows_builds host_fix (config_for "scenario.json" "arrows")
           [sample_a; sample_b] 2 startup_world Hpos).
Defined.

(** X19. A field that is zero at its strongest makes the arrows mode
    fail: when [max_magnitude] is 0 and some sample has a magnitude that is
    not negative, [visualize_arrows] raises [ZeroDivisionError] (at the
    logarithmic length, line 180) without adding an arrow; so [main] in
    mode 'arrows' on a dataset whose largest magnitude is 0 ends with that
    exception, the scene cleared and empty. *)
Theorem arrows_zero_field `{Host} (cfg : Config) :
  (forall (field_points : list (FieldPoint Q)) (max_magnitude : Q) (w : World),
     max_magnitude == 0 ->
     (exists p, In p field_points /\ 0 <= magnitude p) ->
     exists w',
       visualize_arrows cfg field_points max_magnitude w
         = (inl ZeroDivisionError, w') /\
       objects w' = objects w) /\
  (forall (fs : FileSystem) (w : World) (raw_points : list (FieldPoint json))
          (sources : list Source) (metadata : json)
          (field_points : list (FieldPoint Q)) (max_magnitude : Q),
     VISUALIZATION_MODE cfg = "arrows"%string ->
     (forall w0,
        load_data cfg fs w0 = (inr (Some (raw_points, sources, metadata)), w0)) ->
     map_result numeric_point raw_points = inr field_points ->
     py_max (map magnitude field_points) = inr max_magnitude ->
     max_magnitude == 0 ->
     exists w',
       main cfg fs w = (inl ZeroDivisionError, w') /\ objects w' = []).
Proof.
  split.
  - intros field_points max_magnitude w. apply visualize_arrows_zero.
  - intros fs w raw_points sources metadata field_points max_magnitude
           Hmode Hload Hnum Hmax Hzero.
    rewrite (main_after_load cfg fs w raw_points sources metadata field_points
               max_magnitude Hload Hnum Hmax).
    assert (exists p, In p field_points /\ 0 <= magnitude p) as Hp.
    { destruct field_points as [|a rest]; [discriminate Hmax|].
      cbn [map py_max] in Hmax. injection Hmax as Hm.
      destruct (py_max_fold (map magnitude rest) (magnitude a)) as (Hin & _).
      rewrite Hm in Hin. change (In max_magnitude (map magnitude (a :: rest))) in Hin.
      apply in_map_iff in Hin. destruct Hin as (p & Ep & Hin).
      exists p. split; [exact Hin|]. rewrite Ep, Hzero. apply Qle_refl. }
    unfold bind at 1. unfold visualize. rewrite Hmode, String.eqb_refl.
    unfold bind at 1.
    destruct (visualize_arrows_zero cfg field_points max_magnitude
                (loaded_world cfg w (List.length raw_points)
                              (List.length sources) max_magnitude) Hzero Hp)
      as (w' & E & Ho).
    rewrite E. exists w'. split; [reflexivity|]. rewrite Ho. reflexivity.
Qed.

Lemma arrows_zero_field_witness :
  VISUALIZATION_MODE (config_for "null.json" "arrows") = "arrows"%string /\
  exists w',
    @main host_fix (config_for "null.json" "arrows") null_fs startup_world
      = (inl ZeroDivisionError, w') /\ objects w' = [].
Proof.
  split; [reflexivity|].
  apply (proj2 (@arrows_zero_field host_fix (config_for "null.json" "arrows"))
           null_fs startup_world
           [mkFieldPoint (mkVector 0 0 0) (mkVector 0 0 0) (JNum 0)] []
           (JObj []) [mkFieldPoint (mkVector 0 0 0) (mkVector 0 0 0) 0] 0).
  - reflexivity.
  - intros w0. reflexivity.
  - reflexivity.
  - reflexivity.
  - reflexivity.
Defined.

(** ** The curve builder *)

Lemma range_step_length (stop step : nat) :
  List.length (range_step stop step) = ((stop + step - 1) / step)%nat.
Proof. unfold range_step. now rewrite length_map, length_seq. Qed.

Lemma range_step_lt (stop step : nat) :
  (1 <= step)%nat -> Forall (fun i => (i < stop)%nat) (range_step stop step).
Proof.
  intros Hstep. unfold range_step. apply Forall_forall. intros i Hi.
  apply in_map_iff in Hi. destruct Hi as (k & <- & Hk).
  apply in_seq in Hk. cbn [Nat.add] in Hk. destruct Hk as (_ & Hk).
  pose proof (Nat.Div0.mul_div_le (stop + step - 1) step) as Hdiv.
  nia.
Qed.

Lemma range_step_few (n : nat) :
  (List.length (range_step n (Nat.max 1 (n / 50))) <= 99)%nat /\
  (List.length (range_step n (Nat.max 1 (n / 50))) <= n)%nat.
Proof.
  rewrite range_step_length.
  set (step := Nat.max 1 (n / 50)).
  assert (1 <= step)%nat as Hstep by (unfold step; lia).
  assert (n < 99 * step + 1)%nat as Hn.
  { pose proof (Nat.div_mod_eq n 50) as Hdm.
    pose proof (Nat.mod_upper_bound n 50 ltac:(lia)) as Hmod.
    unfold step. lia. }
  split.
  - apply Nat.lt_succ_r. apply Nat.Div0.div_lt_upper_bound. lia.
  - destruct n as [|n]; [rewrite Nat.div_small by lia; lia|].
    apply Nat.lt_succ_r. apply Nat.Div0.div_lt_upper_bound. nia.
Qed.

Section CurveFacts.
Context `{Host}.
Variable cfg : Config.
Variable field_points : list (FieldPoint Q).
Variable max_magnitude : Q.
Hypothesis max_positive : 0 < max_magnitude.

Lemma curve_body_step (count i : nat) (w : World) :
  (i < List.length field_points)%nat ->
  (curve_body cfg field_points max_magnitude count i w = (inr count, w)) \/
  (exists o,
     curve_body cfg field_points max_magnitude count i w
       = (inr (S count),
          mkWorld (objects w ++ [o]) (collections w) (camera w)
                  (background w) (stdout w)) /\
     is_streamline cfg field_points max_magnitude o).
Proof.
  intros Hi. unfold curve_body.
  destruct (nth_error field_points i) as [start_point|] eqn:Enth.
  2:{ apply nth_error_None in Enth. lia. }
  destruct (Qltb (magnitude start_point) (max_magnitude * (1 # 100))) eqn:Ew;
    [left; reflexivity|].
  destruct (List.length (trace_field_line field_points max_magnitude
                           start_point (CURVE_STEPS cfg)) <? 2)%nat eqn:El;
    [left; reflexivity|].
  assert (Qeq_bool max_magnitude 0 = false) as ->.
  { destruct (Qeq_bool max_magnitude 0) eqn:E; [|reflexivity].
    apply Qeq_bool_iff in E. lra. }
  right. eexists. split; [reflexivity|].
  unfold is_streamline. cbn [kind ob_collection ob_polyline ob_color ob_name].
  split; [reflexivity|]. split; [reflexivity|].
  split; [exists count; reflexivity|].
  split; [rewrite length_map; apply Nat.ltb_ge in El; exact El|].
  exists start_point.
  split; [eapply nth_error_In; exact Enth|].
  split; [apply Qltb_ge; exact Ew|]. split; reflexivity.
Qed.

Lemma curve_loop (indices : list nat) :
  Forall (fun i => (i < List.length field_points)%nat) indices ->
  forall (count : nat) (w : World),
  exists curves,
    for_count (curve_body cfg field_points max_magnitude) count indices w
      = (inr (count + List.length curves)%nat,
         mkWorld (objects w ++ curves) (collections w) (camera w)
                 (background w) (stdout w)) /\
    (List.length curves <= List.length indices)%nat /\
    Forall (is_streamline cfg field_points max_magnitude) curves.
Proof.
  induction 1 as [|i indices Hi _ IH]; intros count w.
  - exists []. cbn [for_count List.length]. rewrite app_nil_r, Nat.add_0_r.
    destruct w. repeat split; constructor.
  - cbn [for_count]. unfold bind at 1.
    destruct (curve_body_step count i w Hi) as [E|(o & E & Ho)]; rewrite E.
    + destruct (IH count w) as (curves & Ef & Hl & Hs).
      exists curves. split; [exact Ef|]. split; [cbn [List.length]; lia|exact Hs].
    + destruct (IH (S count)
                   (mkWorld (objects w ++ [o]) (collections w) (camera w)
                            (background w) (stdout w)))
        as (curves & Ef & Hl & Hs).
      exists (o :: curves). rewrite Ef.
      cbn [objects collections camera background stdout List.length].
      rewrite <- app_assoc. cbn [app].
      split; [f_equal; f_equal; lia|].
      split; [lia|]. constructor; assumption.
Qed.

Lemma visualize_curves_adds (w : World) :
  exists curves,
    visualize_curves cfg field_points max_magnitude w
      = (inr tt,
         mkWorld (objects w ++ curves)
                 (collections w ++ ["Magnetic Field Lines"%string])
                 (camera w) (background w)
                 (stdout w ++ [CreatingStreamlines (List.length field_points);
                               CreatedStreamlines (List.length curves)])) /\
    (List.length curves <= 99)%nat /\
    (List.length curves <= List.length field_points)%nat /\
    Forall (is_streamline cfg field_points max_magnitude) curves.
Proof.
  unfold visualize_curves.
  cbv [bind print new_collection objects collections camera background stdout].
  match goal with
  | |- context [for_count ?b 0%nat ?ix ?w0] =>
      destruct (curve_loop ix
                  (range_step_lt _ _ (Nat.le_max_l 1 _)) 0%nat w0)
        as (curves & E & Hl & Hs)
  end.
  exists curves. rewrite E.
  cbn [objects collections camera background stdout Nat.add].
  rewrite <- app_assoc. cbn [app].
  split; [reflexivity|].
  destruct (range_step_few (List.length field_points)) as (H99 & Hn).
  repeat split; try assumption; lia.
Qed.

End CurveFacts.

(** X20. With a positive [max_magnitude], [visualize_curves] returns
    normally (its indices never leave the list) and adds to the scene, in
    the new collection "Magnetic Field Lines", at most 99 streamlines and at
    most one per sample; each is a curve traced from a sample of magnitude at
    least [max_magnitude * 0.01], colored by that magnitude, with at least
    two points; the count printed at the end is the number added. *)
Theorem visualize_curves_builds `{Host} (cfg : Config)
    (field_points : list (FieldPoint Q)) (max_magnitude : Q) (w : World) :
  0 < max_magnitude ->
  exists curves,
    visualize_curves cfg field_points max_magnitude w
      = (inr tt,
         mkWorld (objects w ++ curves)
                 (collections w ++ ["Magnetic Field Lines"%string])
                 (camera w) (background w)
                 (stdout w ++ [CreatingStreamlines (List.length field_points);
                               CreatedStreamlines (List.length curves)])) /\
    (List.length curves <= 99)%nat /\
    (List.length curves <= List.length field_points)%nat /\
    Forall (is_streamline cfg field_points max_magnitude) curves.
Proof.
  intros Hpos. apply visualize_curves_adds. exact Hpos.
Qed.

Lemma visualize_curves_builds_witness :
  0 < 2 /\
  exists curves,
    @visualize_curves host_fix (config_for "scenario.json" "curves")
                      [sample_a; sample_b] 2 startup_world
      = (inr tt,
         mkWorld (objects startup_world ++ curves)
                 (collections startup_world ++ ["Magnetic Field Lines"%string])
                 (camera startup_world) (background startup_world)
                 (stdout startup_world
                    ++ [CreatingStreamlines (List.length [sample_a; sample_b]);
                        CreatedStreamlines (List.length curves)])) /\
    (List.length curves <= 99)%nat /\
    (List.length curves <= List.length [sample_a; sample_b])%nat /\
    Forall (@is_streamline host_fix (config_for "scenario.json" "curves")
              [sample_a; sample_b] 2) curves.
Proof.
  assert (0 < 2) as Hpos by reflexivity.
  split; [exact Hpos|].
  apply (@visualize_curves_builds host_fix (config_for "scenario.json" "curves")
           [sample_a; sample_b] 2 startup_world Hpos).
Defined.

(** ** Sources, scene setup and the whole run *)

Section FinishFacts.
Context `{Host}.
Variable cfg : Config.

Lemma source_loop (sources : list Source) :
  numeric_radii sources ->
  forall (i : nat) (w : World),
  exists w',
    for_each source_body i sources w = (inr tt, w') /\
    List.length (objects w') = (List.length (objects w) + List.length sources)%nat.
Proof.
  induction 1 as [|s sources (r & Hr) _ IH]; intros i w.
  - exists w. cbn [for_each List.length]. split; [reflexivity|lia].
  - cbn [for_each]. unfold bind at 1. unfold source_body at 1.
    cbv [bind lift add_object move_to_collection]. rewrite Hr.
    cbn [objects collections camera background stdout].
    match goal with
    | |- context [for_each source_body (S i) sources ?w1] =>
        destruct (IH (S i) w1) as (w' & E & Hl)
    end.
    exists w'. split; [exact E|]. rewrite Hl.
    cbn [objects]. rewrite length_map, length_app. cbn [List.length]. lia.
Qed.

Lemma create_sources_adds (sources : list Source) (w : World) :
  numeric_radii sources ->
  exists w',
    create_sources cfg sources w = (inr tt, w') /\
    List.length (objects w')
      = (List.length (objects w) + shown_sources cfg sources)%nat.
Proof.
  intros Hnum. unfold create_sources, shown_sources.
  destruct sources as [|s rest].
  - exists w. split; [reflexivity|]. destruct (SHOW_SOURCES cfg); cbn; lia.
  - destruct (SHOW_SOURCES cfg); cbn [negb].
    + cbv [bind print new_collection].
      cbn [objects collections camera background stdout].
      match goal with
      | |- context [for_each source_body 0%nat ?l ?w1] =>
          destruct (source_loop l Hnum 0%nat w1) as (w' & E & Hl)
      end.
      exists w'. split; [exact E|]. rewrite Hl. reflexivity.
    + exists w. split; [reflexivity|lia].
Qed.







Lemma main_fails_to_load (fs : FileSystem) (w : World) (e : exn) :
  (forall w0, load_data cfg fs w0 = (inl e, w0)) ->
  main cfg fs w =
    (inl e,
     mkWorld [] (collections w) (camera w) (background w)
             (stdout w ++ preamble cfg)).
Proof.
  intros Hload. unfold main.
  cbv [bind print clear_scene objects collections camera background stdout].
  rewrite Hload. unfold preamble. rewrite <- !app_assoc. reflexivity.
Qed.

Lemma load_data_json_error (fs : FileSystem) (e : exn) :
  endswith (FILE_PATH cfg) ".json" = true ->
  load_field_data_json fs (FILE_PATH cfg) = inl e ->
  forall w0, load_data cfg fs w0 = (inl e, w0).
Proof.
  intros Hj He w0. unfold load_data. rewrite Hj.
  cbv [bind lift]. now rewrite He.
Qed.

Lemma load_data_csv_error (fs : FileSystem) (e : exn) :
  endswith (FILE_PATH cfg) ".json" = false ->
  endswith (FILE_PATH cfg) ".csv" = true ->
  load_field_data_csv fs (FILE_PATH cfg) = inl e ->
  forall w0, load_data cfg fs w0 = (inl e, w0).
Proof.
  intros Hj Hc He w0. unfold load_data. rewrite Hj, Hc.
  cbv [bind lift]. now rewrite He.
Qed.

End FinishFacts.

(** X21. An exception of the loader leaves [main] as it is: when the path
    ends in [.json] (or, failing that, in [.csv]) and the loader of that
    format raises, [main] raises the same exception, having cleared the
    scene and printed nothing after the "Loading data from" line. *)
Theorem main_load_error `{Host} (cfg : Config) (fs : FileSystem) (w : World)
    (e : exn) :
  (endswith (FILE_PATH cfg) ".json" = true /\
   load_field_data_json fs (FILE_PATH cfg) = inl e) \/
  (endswith (FILE_PATH cfg) ".json" = false /\
   endswith (FILE_PATH cfg) ".csv" = true /\
   load_field_data_csv fs (FILE_PATH cfg) = inl e) ->
  main cfg fs w =
    (inl e,
     mkWorld [] (collections w) (camera w) (background w)
             (stdout w ++ preamble cfg)).
Proof.
  intros [(Hj & He) | (Hj & Hc & He)]; apply main_fails_to_load.
  - apply load_data_json_error; assumption.
  - apply load_data_csv_error; assumption.
Qed.

Lemma main_load_error_witness :
  endswith (FILE_PATH (config_for "broken.json" "arrows")) ".json" = true /\
  load_field_data_json more_fs (FILE_PATH (config_for "broken.json" "arrows"))
    = inl (KeyError "magnitude") /\
  @main host_fix (config_for "broken.json" "arrows") more_fs startup_world
    = (inl (KeyError "magnitude"),
       mkWorld [] (collections startup_world) (camera startup_world)
               (background startup_world)
               (stdout startup_world
                  ++ preamble (config_for "broken.json" "arrows"))).
Proof.
  split; [reflexivity|]. split; [reflexivity|].
  apply (@main_load_error host_fix (config_for "broken.json" "arrows") more_fs
           startup_world (KeyError "magnitude")).
  left. split; reflexivity.
Defined.






(** ** The extension test *)

Lemma substring_all (s : string) : substring 0 (String.length s) s = s.
Proof. induction s as [|c s IH]; cbn; [reflexivity|now rewrite IH]. Qed.

Lemma substring_suffix (pre suffix : string) :
  substring (String.length pre) (String.length suffix) (pre ++ suffix) = suffix.
Proof.
  induction pre as [|c pre IH]; cbn [String.length append substring].
  - apply substring_all.
  - exact IH.
Qed.

Lemma length_append (a b : string) :
  String.length (a ++ b) = (String.length a + String.length b)%nat.
Proof. induction a as [|c a IH]; cbn; [reflexivity|now rewrite IH]. Qed.

Lemma substring_split (s : string) :
  forall m : nat,
    (m <= String.length s)%nat ->
    s = (substring 0 m s ++ substring m (String.length s - m) s)%string.
Proof.
  induction s as [|c s IH]; intros m Hm.
  - destruct m; reflexivity.
  - destruct m as [|m].
    + cbn [substring append]. rewrite Nat.sub_0_r.
      cbn [String.length]. cbn [substring]. now rewrite substring_all.
    + cbn [String.length] in *. cbn [substring append Nat.sub].
      f_equal. apply IH. lia.
Qed.

(** X25. The extension test is a suffix test: [endswith s suffix] holds
    exactly when [s] is some string followed by [suffix]; it is sensitive to
    case, and a path that is the bare extension passes. *)
Theorem endswith_suffix (s suffix : string) :
  endswith s suffix = true <-> exists pre, s = (pre ++ suffix)%string.
Proof.
  unfold endswith. split.
  - intros E. apply andb_true_iff in E. destruct E as (Hlen & Heq).
    apply Nat.leb_le in Hlen. apply String.eqb_eq in Heq.
    exists (substring 0 (String.length s - String.length suffix) s).
    pose proof (substring_split s (String.length s - String.length suffix)
                  ltac:(lia)) as Hsplit.
    replace (String.length s - (String.length s - String.length suffix))%nat
      with (String.length suffix) in Hsplit by lia.
    rewrite Heq in Hsplit. exact Hsplit.
  - intros (pre & ->). rewrite length_append. apply andb_true_iff. split.
    + apply Nat.leb_le. lia.
    + replace (String.length pre + String.length suffix - String.length suffix)%nat
        with (String.length pre) by lia.
      rewrite substring_suffix. apply String.eqb_refl.
Qed.

Example endswith_cases :
  endswith "export.JSON" ".json" = false /\
  endswith ".json" ".json" = true /\
  endswith "export.json.bak" ".json" = false /\
  endswith "export.csv" ".csv" = true.
Proof. repeat split; reflexivity. Qed.

(** ** Why a trace ends *)

Lemma last_cons_default {A : Type} (a : A) (l : list A) (d d' : A) :
  last (a :: l) d = last (a :: l) d'.
Proof.
  revert a. induction l as [|b l IH]; intros a; [reflexivity|].
  change (last (b :: l) d = last (b :: l) d'). apply IH.
Qed.

Lemma trace_loop_stop_reason `{Host} (field_points : list (FieldPoint Q))
    (max_magnitude : Q) (n : nat) :
  forall current_pos,
    (List.length (trace_loop field_points max_magnitude n current_pos) < n)%nat ->
    cannot_step field_points max_magnitude
      (last (map tp_position
               (trace_loop field_points max_magnitude n current_pos))
            current_pos).
Proof.
  induction n as [|n IH]; intros current_pos Hlen; [inversion Hlen|].
  cbn [trace_loop] in *. unfold cannot_step.
  destruct (interpolate_field field_points current_pos) as [fld|] eqn:Ef.
  2:{ cbn [map last]. left. exact Ef. }
  destruct (Qltb (magnitude fld) (max_magnitude * tiny)) eqn:Em.
  { cbn [map last]. right. exists fld. split; [exact Ef|].
    left. apply Qltb_lt. exact Em. }
  destruct (out_of_bounds _) eqn:Eo.
  { cbn [map last]. right. exists fld. split; [exact Ef|]. right. exact Eo. }
  cbn [List.length] in Hlen. cbn [map tp_position].
  set (next := vadd current_pos (vscale (normalized (field fld)) step_size)) in *.
  assert (List.length (trace_loop field_points max_magnitude n next) < n)%nat
    as Hlen' by lia.
  specialize (IH next Hlen').
  destruct (trace_loop field_points max_magnitude n next) as [|tp rest] eqn:Et.
  - cbn [map last] in *. exact IH.
  - cbn [map] in *. change (last (next :: ?a :: ?l) current_pos)
      with (last (a :: l) current_pos).
    rewrite (last_cons_default _ _ current_pos next). exact IH.
Qed.

(** X12. A trace that is shorter than [max_steps + 1] ended for one of
    three reasons, read at its last position: there was no sample there to
    read, the sampled magnitude was below [max_magnitude * 1e-6], or the next
    step would have left the domain. *)
Theorem trace_field_line_stop_reason `{Host}
    (field_points : list (FieldPoint Q)) (max_magnitude : Q)
    (start_point : FieldPoint Q) (max_steps : Z) :
  (0 <= max_steps)%Z ->
  (Z.of_nat (List.length
     (trace_field_line field_points max_magnitude start_point max_steps))
   < max_steps + 1)%Z ->
  cannot_step field_points max_magnitude
    (last (map tp_position
             (trace_field_line field_points max_magnitude start_point
                               max_steps))
          (position start_point)).
Proof.
  intros Hsteps Hlen. unfold trace_field_line in *.
  cbn [List.length] in Hlen. cbn [map start_entry tp_position].
  pose proof (trace_loop_stop_reason field_points max_magnitude
                (Z.to_nat max_steps) (position start_point) ltac:(lia)) as Hstop.
  destruct (trace_loop field_points max_magnitude (Z.to_nat max_steps)
              (position start_point)) as [|tp rest]; [exact Hstop|].
  cbn [map] in *.
  change (last (position start_point :: ?a :: ?l) ?d) with (last (a :: l) d).
  exact Hstop.
Qed.

Lemma trace_field_line_stop_reason_witness :
  (0 <= 50)%Z /\
  (Z.of_nat (List.length
     (@trace_field_line host_fix [strong_at_origin] 1 strong_at_origin 50))
   < 50 + 1)%Z /\
  @cannot_step host_fix [strong_at_origin] 1
    (last (map tp_position
             (@trace_field_line host_fix [strong_at_origin] 1 strong_at_origin 50))
          (position strong_at_origin)).
Proof.
  assert (0 <= 50)%Z as Hsteps by lia.
  assert (Z.of_nat (List.length
            (@trace_field_line host_fix [strong_at_origin] 1 strong_at_origin 50))
          < 50 + 1)%Z as Hlen by (vm_compute; reflexivity).
  split; [exact Hsteps|]. split; [exact Hlen|].
  apply (@trace_field_line_stop_reason host_fix [strong_at_origin] 1
           strong_at_origin 50 Hsteps Hlen).
Defined.

(** X26. Any mode other than 'arrows' and 'curves' is a soft abort: for a
    dataset that loads, [main] prints "Unknown visualization mode" with the
    mode, returns normally, and leaves the cleared scene empty: no
    visualization, no sources, no camera or light set up. *)
Theorem main_unknown_mode `{Host} (cfg : Config) (fs : FileSystem)
    (w : World) (raw_points : list (FieldPoint json)) (sources : list Source)
    (metadata : json) (field_points : list (FieldPoint Q)) (max_magnitude : Q) :
  VISUALIZATION_MODE cfg <> "arrows"%string ->
  VISUALIZATION_MODE cfg <> "curves"%string ->
  (forall w0,
     load_data cfg fs w0 = (inr (Some (raw_points, sources, metadata)), w0)) ->
  map_result numeric_point raw_points = inr field_points ->
  py_max (map magnitude field_points) = inr max_magnitude ->
  main cfg fs w =
    (inr tt,
     mkWorld [] (collections w) (camera w) (background w)
             (stdout w ++ preamble cfg
                ++ [LoadedPoints (List.length raw_points);
                    LoadedSources (List.length sources);
                    MaxMagnitude max_magnitude;
                    UnknownMode (VISUALIZATION_MODE cfg)])).
Proof.
  intros Ha Hc Hload Hnum Hmax.
  rewrite (main_after_load cfg fs w raw_points sources metadata field_points
             max_magnitude Hload Hnum Hmax).
  unfold bind at 1.
  rewrite visualize_other_mode by (apply String.eqb_neq; assumption).
  unfold ret, loaded_world. cbn [objects collections camera background stdout].
  rewrite <- !app_assoc. reflexivity.
Qed.

Lemma main_unknown_mode_witness :
  VISUALIZATION_MODE (config_for "scenario.json" "Arrows") <> "arrows"%string /\
  VISUALIZATION_MODE (config_for "scenario.json" "Arrows") <> "curves"%string /\
  @main host_fix (config_for "scenario.json" "Arrows") scenario_fs startup_world
  = (inr tt,
     mkWorld [] (collections startup_world) (camera startup_world)
             (background startup_world)
             (stdout startup_world
                ++ preamble (config_for "scenario.json" "Arrows")
                ++ [LoadedPoints 2; LoadedSources 0; MaxMagnitude 2;
                    UnknownMode "Arrows"])).
Proof.
  assert (VISUALIZATION_MODE (config_for "scenario.json" "Arrows")
          <> "arrows"%string) as Ha by discriminate.
  assert (VISUALIZATION_MODE (config_for "scenario.json" "Arrows")
          <> "curves"%string) as Hc by discriminate.
  split; [exact Ha|]. split; [exact Hc|].
  apply (@main_unknown_mode host_fix (config_for "scenario.json" "Arrows")
           scenario_fs startup_world (map boxed_point [sample_a; sample_b]) []
           (JObj []) [sample_a; sample_b] 2 Ha Hc).
  - intros w0. reflexivity.
  - reflexivity.
  - reflexivity.
Defined.

(** X27. [create_sources] does nothing at all, not even print, when there
    are no sources or [SHOW_SOURCES] is off; otherwise, for sources of
    numeric radius, it returns normally having added one object per source. *)
Theorem create_sources_shown (cfg : Config) (sources : list Source)
    (w : World) :
  (sources = [] \/ SHOW_SOURCES cfg = false ->
   create_sources cfg sources w = (inr tt, w)) /\
  (numeric_radii sources ->
   exists w',
     create_sources cfg sources w = (inr tt, w') /\
     List.length (objects w')
       = (List.length (objects w) + shown_sources cfg sources)%nat).
Proof.
  split.
  - intros [-> | Hoff]; [reflexivity|].
    unfold create_sources. rewrite Hoff. destruct sources; reflexivity.
  - apply create_sources_adds.
Qed.

Lemma create_sources_shown_witness :
  numeric_radii [mkSource (mkVector 0 0 (1 # 2)) (JNum (1 # 100)) (JNum 3)] /\
  exists w',
    create_sources (config_for "scenario.json" "arrows")
      [mkSource (mkVector 0 0 (1 # 2)) (JNum (1 # 100)) (JNum 3)] startup_world
      = (inr tt, w') /\
    List.length (objects w')
      = (List.length (objects startup_world)
         + shown_sources (config_for "scenario.json" "arrows")
             [mkSource (mkVector 0 0 (1 # 2)) (JNum (1 # 100)) (JNum 3)])%nat.
Proof.
  assert (numeric_radii
            [mkSource (mkVector 0 0 (1 # 2)) (JNum (1 # 100)) (JNum 3)]) as Hnum.
  { constructor; [|constructor]. eexists. reflexivity. }
  split; [exact Hnum|].
  apply (proj2 (create_sources_shown
                  (config_for "scenario.json" "arrows") _ startup_world) Hnum).
Defined.

Lemma endswith_suffix_witness :
  (exists pre, "/data/export.json"%string = (pre ++ ".json")%string) /\
  endswith "/data/export.json" ".json" = true.
Proof.
  assert (exists pre, "/data/export.json"%string = (pre ++ ".json")%string)
    as Hsuffix by (exists "/data/export"%string; reflexivity).
  split; [exact Hsuffix|].
  apply (proj2 (endswith_suffix "/data/export.json" ".json") Hsuffix).
Defined.
